(** * kodi2jellyfin: watch-state synchronisation from Kodi to Jellyfin

    A shallow embedding of [src/index.ts] and the properties of its
    reconciliation pass.  The two databases are modelled as tables (lists of
    rows in store order), the asynchronous body of [main] as a computation in
    a small state-and-exception monad, and the two sources of
    non-determinism (a store call that rejects, the wall clock read by
    [new Date()]) as oracles of the environment of one process run. *)

From Stdlib Require Import ZArith NArith Ascii String DecimalString.
From Stdlib.Strings Require Import Byte.
From stdpp Require Import base option list gmap strings.

#[local] Set Warnings "-clear-no-such-hyp".

Local Open Scope string_scope.
Local Open Scope list_scope.

(** ** Strings and buffers *)

Module Js.

(** [s.substring(start, end)]: the characters from index [start] up to, not
    including, index [end]; both indices are clamped to the length of [s] and
    swapped when [start > end]. *)
Definition substring (s : string) (start end_ : nat) : string :=
  let lo := Nat.min start end_ in
  let hi := Nat.max start end_ in
  String.substring lo (hi - lo) s.

(** [parts.join(sep)] *)
Fixpoint join (sep : string) (parts : list string) : string :=
  match parts with
  | [] => ""
  | [p] => p
  | p :: rest => p +:+ sep +:+ join sep rest
  end.

(** [n] characters [0]. *)
Fixpoint zeros (n : nat) : string :=
  match n with
  | O => ""
  | S n' => String "0" (zeros n')
  end.

(** [s.padStart(targetLength, "0")] *)
Definition padStart0 (s : string) (targetLength : nat) : string :=
  zeros (targetLength - String.length s) +:+ s.

(** Truthiness of a value of type [string | null]: [null] and the empty
    string are falsy. *)
Definition truthy (v : option string) : bool :=
  match v with
  | Some (String _ _) => true
  | _ => false
  end.

(** The string that a truthy value of that type is. *)
Definition string_of (v : option string) : string :=
  match v with
  | Some s => s
  | None => ""
  end.

End Js.

(** A Node [Buffer] is a sequence of bytes. *)
Abbreviation Buffer := (list byte).

Definition hex_digit (n : N) : ascii :=
  match n with
  | 0 => "0" | 1 => "1" | 2 => "2" | 3 => "3" | 4 => "4" | 5 => "5"
  | 6 => "6" | 7 => "7" | 8 => "8" | 9 => "9" | 10 => "a" | 11 => "b"
  | 12 => "c" | 13 => "d" | 14 => "e" | _ => "f"
  end%N%char.

Definition hex_hi (b : byte) : ascii := hex_digit (Byte.to_N b / 16).
Definition hex_lo (b : byte) : ascii := hex_digit (Byte.to_N b mod 16).

(** [buf.toString("hex")]: two lowercase hexadecimal digits per byte. *)
Fixpoint toString_hex (buf : Buffer) : string :=
  match buf with
  | [] => ""
  | b :: rest => String (hex_hi b) (String (hex_lo b) (toString_hex rest))
  end.

(** Exceptions thrown in the program: the [Error] of [formatGUID] and the
    rejection of a store call, with the rank of the call in its run. *)
Inductive exn : Type :=
  | Error (message : string)
  | StoreError (call : nat).

Definition InvalidIdentifierLength : exn :=
  Error "Hex string must be 32 characters long to represent a UUID.".

(** ** [formatGUID] (index.ts, lines 37-57) *)

Definition formatGUID (guid : Buffer) : exn + string :=
  let guidStr := toString_hex guid in
  if negb (String.length guidStr =? 32)%nat then inl InvalidIdentifierLength
  else
    let uuid :=
      [ Js.substring guidStr 0 8;
        Js.substring guidStr 8 12;
        Js.substring guidStr 12 16;
        Js.substring guidStr 16 20;
        Js.substring guidStr 20 32 ] in
    inr (Js.join "-" uuid).

(** *** Reading a canonical identifier string back

    The inverse direction is not part of the program; it is the usual
    reading of an 8-4-4-4-12 string: five groups of hexadecimal digits
    separated by hyphens at positions 8, 13, 18 and 23, decoded two digits
    per byte. *)

Definition unhex_digit (c : ascii) : option N :=
  let n := N_of_ascii c in
  if ((48 <=? n) && (n <=? 57))%N then Some (n - 48)%N
  else if ((97 <=? n) && (n <=? 102))%N then Some (n - 87)%N
  else if ((65 <=? n) && (n <=? 70))%N then Some (n - 55)%N
  else None.

Definition unhex_byte (hi lo : ascii) : option byte :=
  h ← unhex_digit hi; l ← unhex_digit lo; Byte.of_N (16 * h + l).

Fixpoint fromHex (s : string) : option Buffer :=
  match s with
  | "" => Some []
  | String hi (String lo rest) =>
      b ← unhex_byte hi lo; bs ← fromHex rest; Some (b :: bs)
  | String _ "" => None
  end.

Definition is_hyphen (o : option ascii) : bool :=
  match o with
  | Some c => Ascii.eqb c "-"
  | None => false
  end.

Definition parseGUID (s : string) : option Buffer :=
  if (String.length s =? 36)%nat
     && is_hyphen (String.get 8 s) && is_hyphen (String.get 13 s)
     && is_hyphen (String.get 18 s) && is_hyphen (String.get 23 s)
  then
    fromHex (String.substring 0 8 s +:+ String.substring 9 4 s
             +:+ String.substring 14 4 s +:+ String.substring 19 4 s
             +:+ String.substring 24 12 s)
  else None.

(** Lowercase hexadecimal digit. *)
Definition is_hex (c : ascii) : bool :=
  let n := N_of_ascii c in
  ((48 <=? n) && (n <=? 57) || (97 <=? n) && (n <=? 102))%N.

(** The 8-4-4-4-12 layout: 36 characters, hyphens exactly at positions
    8, 13, 18 and 23, lowercase hexadecimal digits elsewhere. *)
Fixpoint canonical_from (i : nat) (s : string) : bool :=
  match s with
  | "" => true
  | String c rest =>
      (if bool_decide (i ∈ [8; 13; 18; 23]%nat) then Ascii.eqb c "-" else is_hex c)
      && canonical_from (S i) rest
  end.

Definition canonical (s : string) : bool :=
  (String.length s =? 36)%nat && canonical_from 0 s.

(** ** Dates ([date-fns])

    A [Date] is read by [formatISO9075] through its local-time getters only,
    so it is modelled by the values they return ([getMonth] counts from 0). *)

Record Date : Type := mkDate {
  getFullYear : Z;
  getMonth : Z;
  getDate : Z;
  getHours : Z;
  getMinutes : Z;
  getSeconds : Z
}.

(** [Math.abs(number).toString()] for an integer. *)
Definition toString_abs (number : Z) : string :=
  NilZero.string_of_uint (N.to_uint (Z.abs_N number)).

(** [addLeadingZeros(number, targetLength)] of date-fns:
    [sign + Math.abs(number).toString().padStart(targetLength, "0")]. *)
Definition addLeadingZeros (number : Z) (targetLength : nat) : string :=
  let sign := if (number <? 0)%Z then "-" else "" in
  sign +:+ Js.padStart0 (toString_abs number) targetLength.

(** [formatISO9075(date)] with the default options (extended format, complete
    representation): [yyyy-MM-dd HH:mm:ss] in local time.  The date is valid,
    as every [new Date()] is, so that the function does not throw. *)
Definition formatISO9075 (date : Date) : string :=
  let day := addLeadingZeros (getDate date) 2 in
  let month := addLeadingZeros (getMonth date + 1) 2 in
  let year := addLeadingZeros (getFullYear date) 4 in
  let result := year +:+ "-" +:+ month +:+ "-" +:+ day in
  let hour := addLeadingZeros (getHours date) 2 in
  let minute := addLeadingZeros (getMinutes date) 2 in
  let second := addLeadingZeros (getSeconds date) 2 in
  result +:+ " " +:+ hour +:+ ":" +:+ minute +:+ ":" +:+ second.

(** ** The two stores *)

(** A cell of a Jellyfin row and a field of the objects passed to
    [insert] and [update]. *)
Inductive Value : Type :=
  | VNull
  | VNum (n : Z)
  | VStr (s : string).

Global Instance Value_eq_dec : EqDecision Value.
Proof. solve_decision. Defined.

(** A row of [UserDatas], and likewise a JavaScript object literal: a finite
    map from column names to values. *)
Abbreviation Row := (gmap string Value).

(** A row of the Kodi table [files]; [playCount] and [lastPlayed] are
    nullable. *)
Record FilesRow : Type := mkFilesRow {
  files_strFilename : string;
  files_lastPlayed : option string;
  files_playCount : option Z
}.

(** An element of [watched] (index.ts, lines 67-71); [lastPlayed] is [null]
    when the column is. *)
Record KodiEntry : Type := mkKodiEntry {
  strFilename : string;
  lastPlayed : option string;
  playCount : Z
}.

(** A row of the Jellyfin table [TypedBaseItems], restricted to the columns
    the program reads. *)
Record Item : Type := mkItem {
  guid : Buffer;
  UserDataKey : string;
  Path : option string
}.

(** *** The [LIKE] operator of SQLite

    In a pattern, [%] matches any sequence of characters, [_] matches any
    single character, and any other character matches itself, ASCII letters
    without regard to case.  There is no escape character unless the query
    names one, and the program's query names none.

    SQLite reads text as UTF-8, and so does the model: a string is its
    sequence of bytes, and a character is a byte that is not a continuation
    byte (10xxxxxx), together with the continuation bytes that follow it when
    it is a lead byte (11xxxxxx).  [_] takes one character, not one byte.
    [%] is tried at every byte; inside a character nothing of a well-formed
    pattern matches, so that on well-formed text the matching is by
    characters throughout. *)

Definition to_lower (c : ascii) : ascii :=
  let n := N_of_ascii c in
  if ((65 <=? n) && (n <=? 90))%N then ascii_of_N (n + 32) else c.

Definition like_chr (p c : ascii) : bool :=
  Ascii.eqb (to_lower p) (to_lower c).

Definition is_continuation (c : ascii) : bool :=
  let n := N_of_ascii c in ((128 <=? n) && (n <=? 191))%N.

Definition is_lead (c : ascii) : bool := (192 <=? N_of_ascii c)%N.

Fixpoint skip_continuation (s : string) : string :=
  match s with
  | "" => ""
  | String c s' => if is_continuation c then skip_continuation s' else s
  end.

(** What follows the first character of [s], when [s] starts with one. *)
Definition after_character (s : string) : option string :=
  match s with
  | "" => None
  | String c s' =>
      if is_continuation c then None
      else Some (if is_lead c then skip_continuation s' else s')
  end.

Fixpoint like (pattern : string) : string → bool :=
  match pattern with
  | "" => λ s, match s with "" => true | String _ _ => false end
  | String p pattern' =>
      if Ascii.eqb p "%" then
        fix any (s : string) : bool :=
          like pattern' s
          || match s with "" => false | String _ s' => any s' end
      else if Ascii.eqb p "_" then
        λ s, match after_character s with
             | Some s' => like pattern' s'
             | None => false
             end
      else
        λ s, match s with
             | "" => false
             | String c s' => like_chr p c && like pattern' s'
             end
  end.

(** [Path LIKE pattern]; a [NULL] path matches nothing. *)
Definition path_like (pattern : string) (it : Item) : bool :=
  match Path it with
  | Some path => like pattern path
  | None => false
  end.

(** [SELECT ... WHERE Path LIKE pattern LIMIT 1]: the first matching row in
    the store's order. *)
Definition first_like (pattern : string) (items : list Item) : option Item :=
  head (filter (λ it, path_like pattern it = true) items).

(** [key = k] on a row of [UserDatas]. *)
Definition key_is (k : string) (row : Row) : bool :=
  bool_decide (row !! "key" = Some (VStr k)).

(** [SELECT * WHERE key = k LIMIT 1] *)
Definition first_where_key (k : string) (rows : list Row) : option Row :=
  head (filter (λ row, key_is k row = true) rows).

(** [UPDATE ... SET data WHERE key = k]: the columns of [data] are
    overwritten in every row selected by the condition. *)
Definition set_where_key (k : string) (data : Row) (row : Row) : Row :=
  if key_is k row then data ∪ row else row.

Definition update_rows (k : string) (data : Row) (rows : list Row) : list Row :=
  set_where_key k data <$> rows.

(** *** The source reader: [where("playCount", ">", 0).select(...)] *)
Definition select_watched (table : list FilesRow) : list KodiEntry :=
  omap (λ f,
          match files_playCount f with
          | Some n =>
              if (0 <? n)%Z
              then Some (mkKodiEntry (files_strFilename f) (files_lastPlayed f) n)
              else None
          | None => None
          end) table.

(** ** The process: world, environment and monad *)

(** The lines of the console, without their decoration. *)
Inductive LogLine : Type :=
  | LogConnecting
  | LogFound (n : nat)
  | LogUpdated (file : string)
  | LogInserted (file : string)
  | LogComplete
  | LogError (err : exn).

Record World : Type := mkWorld {
  files : list FilesRow;            (* Kodi: table [files] *)
  TypedBaseItems : list Item;       (* Jellyfin: table [TypedBaseItems] *)
  UserDatas : list Row;             (* Jellyfin: table [UserDatas] *)
  console : list LogLine;           (* lines printed so far *)
  calls : nat;                      (* store calls issued so far *)
  dates : nat;                      (* [Date] objects constructed so far *)
  kodiDb_destroyed : bool;
  jellyfinDb_destroyed : bool
}.

(** What one run cannot control: which store calls reject (by their rank
    among the calls of the run) and what the clock shows at each
    [new Date()]. *)
Record Env : Type := mkEnv {
  rejects : nat → bool;
  clock : nat → Date
}.

Definition M (A : Type) : Type := Env → World → World * (exn + A).

Global Instance M_ret : MRet M := λ A (x : A) env w, (w, inr x).

Global Instance M_bind : MBind M := λ A B (f : A → M B) (m : M A) env w,
  match m env w with
  | (w', inr x) => f x env w'
  | (w', inl e) => (w', inl e)
  end.

(** [try { body } catch (err) { handler(err) }] *)
Definition try_catch {A} (body : M A) (handler : exn → M A) : M A :=
  λ env w,
    match body env w with
    | (w', inl e) => handler e env w'
    | r => r
    end.

(** [try { body } finally { final }] *)
Definition try_finally {A} (body : M A) (final : M unit) : M A :=
  λ env w,
    match body env w with
    | (w', r) =>
        match final env w' with
        | (w'', inr _) => (w'', r)
        | (w'', inl e) => (w'', inl e)
        end
    end.

(** [for (const x of xs) { body(x) }] *)
Fixpoint for_of {A} (xs : list A) (body : A → M unit) : M unit :=
  match xs with
  | [] => mret tt
  | x :: rest => body x ;; for_of rest body
  end.

(** The elementary changes of the world. *)
Definition tick (w : World) : World :=
  mkWorld (files w) (TypedBaseItems w) (UserDatas w) (console w)
          (S (calls w)) (dates w) (kodiDb_destroyed w) (jellyfinDb_destroyed w).

Definition tock (w : World) : World :=
  mkWorld (files w) (TypedBaseItems w) (UserDatas w) (console w)
          (calls w) (S (dates w)) (kodiDb_destroyed w) (jellyfinDb_destroyed w).

Definition print (line : LogLine) (w : World) : World :=
  mkWorld (files w) (TypedBaseItems w) (UserDatas w) (console w ++ [line])
          (calls w) (dates w) (kodiDb_destroyed w) (jellyfinDb_destroyed w).

Definition set_UserDatas (rows : list Row) (w : World) : World :=
  mkWorld (files w) (TypedBaseItems w) rows (console w) (calls w) (dates w)
          (kodiDb_destroyed w) (jellyfinDb_destroyed w).

Definition release_kodiDb (w : World) : World :=
  mkWorld (files w) (TypedBaseItems w) (UserDatas w) (console w)
          (calls w) (dates w) true (jellyfinDb_destroyed w).

Definition release_jellyfinDb (w : World) : World :=
  mkWorld (files w) (TypedBaseItems w) (UserDatas w) (console w)
          (calls w) (dates w) (kodiDb_destroyed w) true.

(** Reading and writing the tables once a call has gone through. *)
Definition gets {A} (f : World → A) : M A := λ env w, (w, inr (f w)).

Definition modify_UserDatas (f : list Row → list Row) : M unit := λ env w,
  (set_UserDatas (f (UserDatas w)) w, inr tt).

(** [console.log(line)] and [console.error(line)] *)
Definition console_log (line : LogLine) : M unit := λ env w,
  (print line w, inr tt).

(** One awaited query or write: it is counted, and it rejects when the
    environment says so, before it has had any effect. *)
Definition store_call : M unit := λ env w,
  if rejects env (calls w) then (tick w, inl (StoreError (calls w)))
  else (tick w, inr tt).

(** [new Date()] *)
Definition new_Date : M Date := λ env w,
  (tock w, inr (clock env (dates w))).

(** [kodiDb("files").where("playCount", ">", 0).select(...)] *)
Definition kodi_select_watched : M (list KodiEntry) :=
  store_call ;; gets (λ w, select_watched (files w)).

(** [jellyfinDb("TypedBaseItems").select(...).whereLike("Path", pattern).first()] *)
Definition items_whereLike_first (pattern : string) : M (option Item) :=
  store_call ;;
  gets (λ w, first_like pattern (TypedBaseItems w)).

(** [jellyfinDb("UserDatas").where("key", k).first()] *)
Definition userdatas_where_first (k : string) : M (option Row) :=
  store_call ;;
  gets (λ w, first_where_key k (UserDatas w)).

(** [jellyfinDb("UserDatas").where("key", k).update(data)] *)
Definition userdatas_where_update (k : string) (data : Row) : M unit :=
  store_call ;; modify_UserDatas (update_rows k data).

(** [jellyfinDb("UserDatas").insert(row)] *)
Definition userdatas_insert (row : Row) : M unit :=
  store_call ;; modify_UserDatas (λ rows, rows ++ [row]).

(** [kodiDb.destroy()] and [jellyfinDb.destroy()]: releasing a pool is not a
    query and does not reject. *)
Definition kodiDb_destroy : M unit := λ env w, (release_kodiDb w, inr tt).

Definition jellyfinDb_destroy : M unit := λ env w, (release_jellyfinDb w, inr tt).

(** ** [main] (index.ts, lines 62-130) *)

(** The object [data] of lines 97-105, given the already computed
    [lastPlayedDate]; its properties are set in the order of the literal. *)
Definition data_of (kodiEntry : KodiEntry) (lastPlayedDate : string) : Row :=
  <["lastPlayedDate" := VStr lastPlayedDate]>
  (<["playCount" := VNum (playCount kodiEntry)]>
  (<["playbackPositionTicks" := VNum 0]>
  (<["played" := VNum 1]>
  (<["isFavorite" := VNum 0]>
  (<["userId" := VNum 1]> ∅))))).

(** [a || b] where [a] is of type [string | null]: the right operand is
    evaluated only when the left one is falsy. *)
Definition or_else (a : option string) (b : M string) : M string :=
  if Js.truthy a then mret (Js.string_of a) else b.

(** [(kodiEntry.lastPlayed || formatISO9075(new Date())) + ".000Z"] *)
Definition lastPlayedDate_of (kodiEntry : KodiEntry) : M string :=
  s ← or_else (lastPlayed kodiEntry) (date ← new_Date; mret (formatISO9075 date));
  mret (s +:+ ".000Z").

(** The body of the loop, lines 79-120. *)
Definition sync_entry (kodiEntry : KodiEntry) : M unit :=
  jellyItem ← items_whereLike_first ("%" +:+ strFilename kodiEntry +:+ "%");
  match jellyItem with
  | None => mret tt
  | Some jellyItem =>
      existing ← userdatas_where_first (UserDataKey jellyItem);
      lastPlayedDate ← lastPlayedDate_of kodiEntry;
      let data := data_of kodiEntry lastPlayedDate in
      match existing with
      | Some _ =>
          userdatas_where_update (UserDataKey jellyItem) data ;;
          console_log (LogUpdated (strFilename kodiEntry))
      | None =>
          userdatas_insert (<["key" := VStr (UserDataKey jellyItem)]> data) ;;
          console_log (LogInserted (strFilename kodiEntry))
      end
  end.

Definition main : M unit :=
  try_finally
    (try_catch
       (console_log LogConnecting ;;
        watched ← kodi_select_watched;
        console_log (LogFound (length watched)) ;;
        for_of watched sync_entry ;;
        console_log LogComplete)
       (λ err, console_log (LogError err)))
    (kodiDb_destroy ;; jellyfinDb_destroy).

(** A process starts with fresh connections and an empty console on the
    current content of the stores. *)
Definition boot (kodi_files : list FilesRow) (items : list Item)
    (userdatas : list Row) : World :=
  mkWorld kodi_files items userdatas [] 0 0 false false.

(** One run of the program from the given store content, and a second one on
    what the first left in the stores. *)
Definition run (env : Env) (w : World) : World := (main env w).1.

Definition rerun (env : Env) (w : World) : World :=
  run env (boot (files w) (TypedBaseItems w) (UserDatas w)).

(** ** Notions used to state the properties *)

(** No store call of the run rejects. *)
Definition reliable (env : Env) : Prop := ∀ n, rejects env n = false.

(** The pattern handed to [whereLike] for an entry. *)
Definition pattern_of (kodiEntry : KodiEntry) : string :=
  "%" +:+ strFilename kodiEntry +:+ "%".

(** Pure substring containment, as [s.includes(needle)]: [needle] starts at
    some position of [s], character for character. *)
Fixpoint includes (needle s : string) : bool :=
  String.prefix needle s
  || match s with
     | "" => false
     | String _ s' => includes needle s'
     end.

(** Number of positions of [s] at which [needle] starts. *)
Fixpoint occurrences (needle s : string) : nat :=
  (if String.prefix needle s then 1 else 0)
  + match s with
    | "" => 0
    | String _ s' => occurrences needle s'
    end.

(** [c] is one of the characters of [s]. *)
Fixpoint has_char (c : ascii) (s : string) : bool :=
  match s with
  | "" => false
  | String a s' => Ascii.eqb a c || has_char c s'
  end.

(** The columns of the object [data]. *)
Definition payload_columns : gset string :=
  {[ "userId"; "isFavorite"; "played"; "playbackPositionTicks";
     "playCount"; "lastPlayedDate" ]}.

(** The value computed for [lastPlayedDate] when the clock has been read
    [d] times before. *)
Definition stamp (env : Env) (d : nat) (kodiEntry : KodiEntry) : string :=
  (if Js.truthy (lastPlayed kodiEntry)
   then Js.string_of (lastPlayed kodiEntry)
   else formatISO9075 (clock env d)) +:+ ".000Z".

(** The effect on [UserDatas] of lines 92-120 for the key [k]: the existence
    query followed by the update or the insert. *)
Definition upsert (k : string) (data : Row) (rows : list Row) : list Row :=
  match first_where_key k rows with
  | Some _ => update_rows k data rows
  | None => rows ++ [<["key" := VStr k]> data]
  end.

(** The writes a run without rejection issues for the entries [watched], in
    order, the clock having been read [d] times before. *)
Fixpoint writes_of (env : Env) (items : list Item) (d : nat)
    (watched : list KodiEntry) : list (string * Row) :=
  match watched with
  | [] => []
  | e :: rest =>
      match first_like (pattern_of e) items with
      | None => writes_of env items d rest
      | Some it =>
          (UserDataKey it, data_of e (stamp env d e))
          :: writes_of env items (if Js.truthy (lastPlayed e) then d else S d) rest
      end
  end.

Definition apply_writes (ops : list (string * Row)) (rows : list Row) : list Row :=
  foldl (λ rows op, upsert op.1 op.2 rows) rows ops.

(** What a sequence of updates makes of one row. *)
Definition replay (ops : list (string * Row)) (row : Row) : Row :=
  foldl (λ row op, set_where_key op.1 op.2 row) row ops.

(** The writes with one column left out of the data. *)
Definition without (c : string) (ops : list (string * Row)) : list (string * Row) :=
  (λ op, (op.1, delete c op.2)) <$> ops.

(** The key of a row, when it has one. *)
Definition key_of (row : Row) : option string :=
  match row !! "key" with
  | Some (VStr k) => Some k
  | _ => None
  end.

(** Each key identifies at most one row. *)
Definition unique_keys (rows : list Row) : Prop := NoDup (omap key_of rows).

(** The world on entry to the loop when the source query went through. *)
Definition at_loop_entry (w : World) : World :=
  print (LogFound (length (select_watched (files w)))) (tick (print LogConnecting w)).

(** *** The timestamp of a date, digit by digit

    The reference for the format of a date read from the clock:
    [yyyy-MM-dd HH:mm:ss], every field in decimal digits of fixed number, the
    month counted from 1.  It is written from the format, not from
    [formatISO9075]. *)

Definition digit (n : Z) : ascii := ascii_of_N (48 + Z.to_N (n mod 10)).

Definition two_digits (n : Z) : string :=
  String (digit (n / 10)) (String (digit n) "").

Definition four_digits (n : Z) : string :=
  String (digit (n / 1000)) (String (digit (n / 100)) (two_digits n)).

Definition timestamp (date : Date) : string :=
  four_digits (getFullYear date) +:+ "-" +:+ two_digits (getMonth date + 1)
  +:+ "-" +:+ two_digits (getDate date) +:+ " " +:+ two_digits (getHours date)
  +:+ ":" +:+ two_digits (getMinutes date) +:+ ":" +:+ two_digits (getSeconds date).

(** The fields of a date of the years 0 to 9999, as the getters return
    them. *)
Definition calendar_date (date : Date) : Prop :=
  (0 ≤ getFullYear date ≤ 9999)%Z
  ∧ (0 ≤ getMonth date ≤ 11)%Z
  ∧ (1 ≤ getDate date ≤ 31)%Z
  ∧ (0 ≤ getHours date ≤ 23)%Z
  ∧ (0 ≤ getMinutes date ≤ 59)%Z
  ∧ (0 ≤ getSeconds date ≤ 59)%Z.

(** *** Which watched file a row has its date from *)

(** The last of the entries that is matched to an item of key [k]. *)
Fixpoint last_for (items : list Item) (k : string) (watched : list KodiEntry)
    : option KodiEntry :=
  match watched with
  | [] => None
  | e :: rest =>
      match last_for items k rest with
      | Some e' => Some e'
      | None =>
          match first_like (pattern_of e) items with
          | Some it => if decide (UserDataKey it = k) then Some e else None
          | None => None
          end
      end
  end.

(** The data of the last of the writes for the key [k]. *)
Fixpoint last_write (k : string) (ops : list (string * Row)) : option Row :=
  match ops with
  | [] => None
  | op :: rest =>
      match last_write k rest with
      | Some data => Some data
      | None => if decide (op.1 = k) then Some op.2 else None
      end
  end.

(** The row has its date from the clock: the last watched file matched to
    an item of its key has no last-played value, [NULL] or the empty
    string. *)
Definition clock_dated (items : list Item) (watched : list KodiEntry) (row : Row)
    : bool :=
  match key_of row with
  | Some k =>
      match last_for items k watched with
      | Some e =>
          match lastPlayed e with
          | None | Some "" => true
          | Some _ => false
          end
      | None => false
      end
  | None => false
  end.

(** ** Sample stores and environments *)

Module Sample.

Definition guid1 : Buffer :=
  [x00; x11; x22; x33; x44; x55; x66; x77; x88; x99; xaa; xbb; xcc; xdd; xee; xff].

Definition guid2 : Buffer :=
  [x0f; x1e; x2d; x3c; x4b; x5a; x69; x78; x87; x96; xa5; xb4; xc3; xd2; xe1; xf0].

(** The scenario of the documentation: one watched episode, known to
    Jellyfin under a longer path, with no watch state yet. *)
Definition episode : KodiEntry :=
  mkKodiEntry "Show/S01E01.mkv" (Some "2023-01-01 10:00:00") 3.

Definition episode_item : Item :=
  mkItem guid1 "abc123" (Some "/mnt/media/Show/S01E01.mkv").

Definition kodi : list FilesRow :=
  [ mkFilesRow "Show/S01E01.mkv" (Some "2023-01-01 10:00:00") (Some 3%Z);
    mkFilesRow "Show/S01E02.mkv" None None ].

Definition world : World := boot kodi [episode_item] [].

(** The same episode once Jellyfin has a row for it, with a column the
    program never writes. *)
Definition old_row : Row :=
  <["key" := VStr "abc123"]> (<["rating" := VNum 8]> (<["playCount" := VNum 1]>
  (<["userId" := VNum 1]> ∅))).

Definition world_seen : World := boot kodi [episode_item] [old_row].

(** A watched file without a last-played date, and one with an empty one. *)
Definition undated : KodiEntry := mkKodiEntry "Show/S01E01.mkv" None 2.
Definition blank : KodiEntry := mkKodiEntry "Show/S01E01.mkv" (Some "") 2.

Definition kodi_undated : list FilesRow :=
  [ mkFilesRow "Show/S01E01.mkv" None (Some 2%Z) ].

Definition world_undated : World := boot kodi_undated [episode_item] [].

(** A file that Jellyfin does not know. *)
Definition stranger : KodiEntry :=
  mkKodiEntry "Other/Film.avi" (Some "2022-06-30 21:15:00") 1.

(** Two files of one episode, both matching the same item. *)
Definition kodi_twice : list FilesRow :=
  [ mkFilesRow "S01E01.mkv" (Some "2023-01-01 10:00:00") (Some 3%Z);
    mkFilesRow "Show/S01E01.mkv" (Some "2023-02-02 20:00:00") (Some 1%Z) ].

Definition world_twice : World := boot kodi_twice [episode_item] [].

(** A file name with an underscore, and two items: the path of the first
    does not contain the name, the path of the second does. *)
Definition underscore : KodiEntry :=
  mkKodiEntry "My_Show.mkv" (Some "2023-03-03 12:00:00") 1.

Definition lookalike_item : Item := mkItem guid1 "k1" (Some "/media/MyXShow.mkv").
Definition exact_item : Item := mkItem guid2 "k2" (Some "/media/My_Show.mkv").

Definition kodi_underscore : list FilesRow :=
  [ mkFilesRow "My_Show.mkv" (Some "2023-03-03 12:00:00") (Some 1%Z) ].

Definition world_underscore : World :=
  boot kodi_underscore [lookalike_item; exact_item] [].

(** Two processes, a day apart, in which no store call rejects, and one in
    which the fifth call does. *)
Definition morning : Env := mkEnv (λ _, false) (λ _, mkDate 2024 0 5 9 3 7).
Definition next_day : Env := mkEnv (λ _, false) (λ _, mkDate 2024 0 6 9 3 7).
Definition fifth_rejects : Env :=
  mkEnv (λ n, bool_decide (n = 4%nat)) (λ _, mkDate 2024 0 5 9 3 7).

Definition kodi_pair : list FilesRow :=
  [ mkFilesRow "Show/S01E01.mkv" (Some "2023-01-01 10:00:00") (Some 3%Z);
    mkFilesRow "Show/S01E02.mkv" (Some "2023-01-02 10:00:00") (Some 1%Z);
    mkFilesRow "Show/S01E03.mkv" (Some "2023-01-03 10:00:00") (Some 1%Z) ].

Definition items_pair : list Item :=
  [ episode_item;
    mkItem guid2 "def456" (Some "/mnt/media/Show/S01E02.mkv") ].

Definition world_pair : World := boot kodi_pair items_pair [].

Definition second : KodiEntry :=
  mkKodiEntry "Show/S01E02.mkv" (Some "2023-01-02 10:00:00") 1.
Definition third : KodiEntry :=
  mkKodiEntry "Show/S01E03.mkv" (Some "2023-01-03 10:00:00") 1.

(** The world when the loop of that process has dealt with the first entry,
    and when its second entry has been abandoned. *)
Definition world_pair_1 : World :=
  (for_of [episode] sync_entry fifth_rejects (at_loop_entry world_pair)).1.
Definition world_pair_2 : World :=
  (sync_entry second fifth_rejects world_pair_1).1.

End Sample.

(** ** Further notions: what a run costs and reports *)

(** The entry has a match among the items. *)
Definition matched (items : list Item) (kodiEntry : KodiEntry) : bool :=
  match first_like (pattern_of kodiEntry) items with
  | Some _ => true
  | None => false
  end.

(** The entry needs the clock: it has a match and no last-played value. *)
Definition undated_match (items : list Item) (kodiEntry : KodiEntry) : bool :=
  matched items kodiEntry && negb (Js.truthy (lastPlayed kodiEntry)).

(** The entries with a match, and those of them that need the clock. *)
Definition matches (items : list Item) (watched : list KodiEntry) : list KodiEntry :=
  filter (λ e, matched items e = true) watched.

Definition undated_matches (items : list Item) (watched : list KodiEntry)
    : list KodiEntry :=
  filter (λ e, undated_match items e = true) watched.

(** The line an iteration prints for a matched entry. *)
Definition outcome_line (rows : list Row) (it : Item) (kodiEntry : KodiEntry) : LogLine :=
  match first_where_key (UserDataKey it) rows with
  | Some _ => LogUpdated (strFilename kodiEntry)
  | None => LogInserted (strFilename kodiEntry)
  end.

(** Number of insertions reported on a console. *)
Fixpoint inserted (lines : list LogLine) : nat :=
  match lines with
  | [] => 0
  | LogInserted _ :: rest => S (inserted rest)
  | _ :: rest => inserted rest
  end.

(** Number of outcomes, insertions and updates, reported on a console. *)
Fixpoint outcomes (lines : list LogLine) : nat :=
  match lines with
  | [] => 0
  | LogInserted _ :: rest | LogUpdated _ :: rest => S (outcomes rest)
  | _ :: rest => outcomes rest
  end.


(** ** More sample stores *)

Module Cases.

(** A row of [UserDatas] for a key that no item has, ahead of the row of the
    sample episode. *)
Definition foreign_row : Row :=
  <["key" := VStr "gone42"]> (<["playCount" := VNum 7]> (<["played" := VNum 1]> ∅)).

Definition world_foreign : World :=
  boot Sample.kodi [Sample.episode_item] [foreign_row; Sample.old_row].

(** A process in which the first store call, the query for the watched
    files, rejects. *)
Definition kodi_down : Env :=
  mkEnv (λ n, bool_decide (n = 0%nat)) (λ _, mkDate 2024 0 5 9 3 7).

(** The table of items with the lookalike alone: no path in it contains the
    name of the sample file with an underscore. *)
Definition world_lookalike : World :=
  boot Sample.kodi_underscore [Sample.lookalike_item] [].

(** One dated and one undated watched file, each with its item. *)
Definition kodi_mixed : list FilesRow :=
  [ mkFilesRow "Show/S01E01.mkv" (Some "2023-01-01 10:00:00") (Some 3%Z);
    mkFilesRow "Show/S01E02.mkv" None (Some 2%Z) ].

Definition world_mixed : World := boot kodi_mixed Sample.items_pair [].

(** A watched file without a name, and a folder, an item without path. *)
Definition nameless : KodiEntry := mkKodiEntry "" (Some "2023-04-04 08:00:00") 1.

Definition folder : Item := mkItem Sample.guid2 "folder" None.

End Cases.

(** * Properties *)

(** ** [formatGUID] *)

Example formatGUID_ex :
  formatGUID [x00; x11; x22; x33; x44; x55; x66; x77;
              x88; x99; xaa; xbb; xcc; xdd; xee; xff]
  = inr "00112233-4455-6677-8899-aabbccddeeff".
Proof. reflexivity. Qed.

Example parseGUID_ex :
  parseGUID "00112233-4455-6677-8899-aabbccddeeff"
  = Some [x00; x11; x22; x33; x44; x55; x66; x77;
          x88; x99; xaa; xbb; xcc; xdd; xee; xff].
Proof. reflexivity. Qed.

Lemma toString_hex_length buf :
  String.length (toString_hex buf) = (2 * length buf)%nat.
Proof. induction buf as [|b buf IH]; simpl; [done | rewrite IH; lia]. Qed.

Lemma unhex_hex b : unhex_byte (hex_hi b) (hex_lo b) = Some b.
Proof. destruct b; reflexivity. Qed.

Lemma hex_hi_is_hex b : is_hex (hex_hi b) = true.
Proof. destruct b; reflexivity. Qed.

Lemma hex_lo_is_hex b : is_hex (hex_lo b) = true.
Proof. destruct b; reflexivity. Qed.

Lemma fromHex_toString_hex buf : fromHex (toString_hex buf) = Some buf.
Proof.
  induction buf as [|b buf IH]; [done |].
  cbn [toString_hex fromHex]. rewrite unhex_hex. cbn. by rewrite IH.
Qed.

Lemma length_16 {A} (l : list A) :
  length l = 16%nat →
  ∃ a0 a1 a2 a3 a4 a5 a6 a7 a8 a9 a10 a11 a12 a13 a14 a15,
    l = [a0; a1; a2; a3; a4; a5; a6; a7; a8; a9; a10; a11; a12; a13; a14; a15].
Proof.
  intros H.
  do 16 (destruct l as [|? l]; [discriminate H |]).
  destruct l; [| discriminate H]. by repeat eexists.
Qed.

(** C5.  On 16 bytes [formatGUID] returns a string in the 8-4-4-4-12
    layout, hexadecimal digits and hyphens, which read back gives the same
    16 bytes; on a buffer of any other length it throws its error, the
    condition [InvalidIdentifierLength]. *)
Theorem formatGUID_roundtrip (guid : Buffer) :
  (length guid = 16%nat →
     ∃ s, formatGUID guid = inr s ∧ canonical s = true ∧ parseGUID s = Some guid)
  ∧ (length guid ≠ 16%nat → formatGUID guid = inl InvalidIdentifierLength).
Proof.
  split.
  - intros H. destruct (length_16 guid H)
      as (a0&a1&a2&a3&a4&a5&a6&a7&a8&a9&a10&a11&a12&a13&a14&a15&->).
    eexists. split; [reflexivity |]. split.
    + cbv -[hex_hi hex_lo is_hex andb].
      by rewrite !hex_hi_is_hex, !hex_lo_is_hex.
    + cbv -[hex_hi hex_lo unhex_byte fromHex].
      apply (fromHex_toString_hex
               [a0; a1; a2; a3; a4; a5; a6; a7; a8; a9; a10; a11; a12; a13; a14; a15]).
  - intros H. unfold formatGUID. rewrite toString_hex_length.
    destruct (2 * length guid =? 32)%nat eqn:E; [| done].
    apply Nat.eqb_eq in E. lia.
Qed.

(** ** The loop body, step by step *)

Lemma bind_unfold {A B} (m : M A) (f : A → M B) env w :
  (m ≫= f) env w =
    match m env w with
    | (w', inr x) => f x env w'
    | (w', inl e) => (w', inl e)
    end.
Proof. reflexivity. Qed.

Lemma store_call_ok env w :
  rejects env (calls w) = false → store_call env w = (tick w, inr tt).
Proof. unfold store_call. by intros ->. Qed.

Lemma store_call_rejected env w :
  rejects env (calls w) = true →
  store_call env w = (tick w, inl (StoreError (calls w))).
Proof. unfold store_call. by intros ->. Qed.

Ltac unfold_M :=
  unfold sync_entry, lastPlayedDate_of, or_else, items_whereLike_first,
    userdatas_where_first, userdatas_where_update, userdatas_insert,
    kodi_select_watched, new_Date, console_log, gets, modify_UserDatas;
  rewrite ?bind_unfold.

(** Read a field through the elementary changes of the world. *)
Ltac read_field t :=
  let r := eval cbn [files TypedBaseItems UserDatas console calls dates
                     kodiDb_destroyed jellyfinDb_destroyed tick tock print
                     set_UserDatas release_kodiDb release_jellyfinDb id] in t in
  progress change t with r.

Ltac fields :=
  repeat match goal with
    | |- context [files (?f ?w)] => read_field (files (f w))
    | |- context [TypedBaseItems (?f ?w)] => read_field (TypedBaseItems (f w))
    | |- context [UserDatas (?f ?w)] => read_field (UserDatas (f w))
    | |- context [console (?f ?w)] => read_field (console (f w))
    | |- context [calls (?f ?w)] => read_field (calls (f w))
    | |- context [dates (?f ?w)] => read_field (dates (f w))
    | |- context [kodiDb_destroyed (?f ?w)] => read_field (kodiDb_destroyed (f w))
    | |- context [jellyfinDb_destroyed (?f ?w)] =>
        read_field (jellyfinDb_destroyed (f w))
    end.

(** Run the next store call of the goal, which goes through. *)
Ltac call_ok :=
  repeat first
    [ rewrite bind_unfold
    | rewrite store_call_ok by (fields; done)
    | progress unfold mret, M_ret
    | progress cbv beta iota
    | progress fields ].

Lemma sync_entry_unmatched env w e :
  rejects env (calls w) = false →
  first_like (pattern_of e) (TypedBaseItems w) = None →
  sync_entry e env w = (tick w, inr tt).
Proof.
  unfold pattern_of. intros Hc Hm. unfold_M. call_ok. by rewrite Hm.
Qed.

Lemma sync_entry_matched env w e it :
  reliable env →
  first_like (pattern_of e) (TypedBaseItems w) = Some it →
  sync_entry e env w =
    (print (match first_where_key (UserDataKey it) (UserDatas w) with
            | Some _ => LogUpdated (strFilename e)
            | None => LogInserted (strFilename e)
            end)
       (set_UserDatas
          (upsert (UserDataKey it) (data_of e (stamp env (dates w) e)) (UserDatas w))
          (tick ((if Js.truthy (lastPlayed e) then id else tock) (tick (tick w))))),
     inr tt).
Proof.
  unfold pattern_of. intros Hr Hm. unfold_M. unfold upsert, stamp.
  call_ok. rewrite Hm. call_ok.
  destruct (Js.truthy (lastPlayed e));
    destruct (first_where_key (UserDataKey it) (UserDatas w));
    call_ok; reflexivity.
Qed.

(** ** Rows and keys *)

Lemma data_of_key e s : data_of e s !! "key" = None.
Proof. reflexivity. Qed.

Lemma data_of_dom e s : dom (data_of e s) = payload_columns.
Proof.
  unfold data_of, payload_columns. rewrite !dom_insert_L, dom_empty_L.
  set_solver.
Qed.

Lemma key_not_payload : "key" ∉ payload_columns.
Proof. unfold payload_columns. set_solver. Qed.

Lemma key_is_true k (row : Row) : key_is k row = true ↔ row !! "key" = Some (VStr k).
Proof. unfold key_is. by rewrite bool_decide_eq_true. Qed.

Lemma key_is_false k (row : Row) : key_is k row = false ↔ row !! "key" ≠ Some (VStr k).
Proof. unfold key_is. by rewrite bool_decide_eq_false. Qed.

Lemma key_is_key_of k (row : Row) : key_is k row = true ↔ key_of row = Some k.
Proof.
  rewrite key_is_true. unfold key_of.
  destruct (row !! "key") as [[| |s]|]; split; intros H; try discriminate H;
    by simplify_eq.
Qed.

Lemma key_is_union k (data row : Row) :
  data !! "key" = None → key_is k (data ∪ row) = key_is k row.
Proof.
  intros Hd. unfold key_is. by rewrite lookup_union_r.
Qed.

Lemma key_of_union (data row : Row) :
  data !! "key" = None → key_of (data ∪ row) = key_of row.
Proof. intros Hd. unfold key_of. by rewrite lookup_union_r. Qed.

Lemma key_is_set_where_key k k' (data row : Row) :
  data !! "key" = None → key_is k (set_where_key k' data row) = key_is k row.
Proof.
  intros Hd. unfold set_where_key. destruct (key_is k' row); [| done].
  by apply key_is_union.
Qed.

Lemma key_of_set_where_key k (data row : Row) :
  data !! "key" = None → key_of (set_where_key k data row) = key_of row.
Proof.
  intros Hd. unfold set_where_key. destruct (key_is k row); [| done].
  by apply key_of_union.
Qed.

Lemma first_where_key_None k rows :
  first_where_key k rows = None ↔ Forall (λ row, key_is k row = false) rows.
Proof.
  unfold first_where_key. induction rows as [|row rows IH]; [done |].
  rewrite filter_cons. destruct (key_is k row) eqn:E.
  - rewrite decide_True by done. split; [done |].
    intros H. apply Forall_cons in H as [H _]. congruence.
  - rewrite decide_False by congruence. rewrite IH, Forall_cons. tauto.
Qed.

Lemma first_where_key_Some k rows row :
  first_where_key k rows = Some row → row ∈ rows ∧ key_is k row = true.
Proof.
  unfold first_where_key. intros H. apply head_Some_elem_of in H.
  by apply list_elem_of_filter in H as [? ?].
Qed.

Lemma first_where_key_is_Some k rows :
  is_Some (first_where_key k rows) ↔ ∃ row, row ∈ rows ∧ key_is k row = true.
Proof.
  split.
  - intros [row H]. exists row. by apply first_where_key_Some.
  - intros (row & Hin & Hk). apply not_eq_None_Some. intros HN.
    apply first_where_key_None in HN.
    eapply Forall_forall in HN; [| done]. simpl in HN. congruence.
Qed.

Lemma update_rows_keys k (data : Row) rows :
  data !! "key" = None → omap key_of (update_rows k data rows) = omap key_of rows.
Proof.
  intros Hd. unfold update_rows.
  induction rows as [|row rows IH]; [done |].
  cbn. by rewrite key_of_set_where_key, IH.
Qed.

Lemma first_where_key_update k k' (data : Row) rows :
  data !! "key" = None →
  is_Some (first_where_key k rows) →
  is_Some (first_where_key k (update_rows k' data rows)).
Proof.
  intros Hd. rewrite !first_where_key_is_Some. intros (row & Hin & Hk).
  exists (set_where_key k' data row). split.
  - unfold update_rows. by apply list_elem_of_fmap_2.
  - by rewrite key_is_set_where_key.
Qed.

Lemma first_where_key_upsert k (data : Row) rows :
  data !! "key" = None → is_Some (first_where_key k (upsert k data rows)).
Proof.
  intros Hd. unfold upsert.
  destruct (first_where_key k rows) as [row|] eqn:E.
  - apply first_where_key_update; [done | by rewrite E].
  - apply first_where_key_is_Some. exists (<["key" := VStr k]> data). split.
    + apply elem_of_app. right. apply list_elem_of_singleton. done.
    + apply key_is_true. apply lookup_insert_eq.
Qed.

Lemma first_where_key_upsert_mono k k' (data : Row) rows :
  data !! "key" = None →
  is_Some (first_where_key k rows) →
  is_Some (first_where_key k (upsert k' data rows)).
Proof.
  intros Hd H. unfold upsert.
  destruct (first_where_key k' rows); [by apply first_where_key_update |].
  apply first_where_key_is_Some in H as (row & Hin & Hk).
  apply first_where_key_is_Some. exists row. split; [| done].
  apply elem_of_app. by left.
Qed.

Lemma upsert_length_existing k (data : Row) rows :
  is_Some (first_where_key k rows) → length (upsert k data rows) = length rows.
Proof.
  intros [row E]. unfold upsert, update_rows. rewrite E. apply length_fmap.
Qed.

(** The upsert never makes a second row for a key. *)
Lemma upsert_unique_keys k (data : Row) rows :
  data !! "key" = None → unique_keys rows → unique_keys (upsert k data rows).
Proof.
  intros Hd Hu. unfold unique_keys, upsert in *.
  destruct (first_where_key k rows) as [row|] eqn:E.
  - by rewrite update_rows_keys.
  - rewrite omap_app. cbn. unfold key_of at 2. rewrite lookup_insert_eq. cbn.
    apply NoDup_app. split; [done |]. split; [| apply NoDup_singleton].
    intros k' Hin Hk'. apply list_elem_of_singleton in Hk' as ->.
    apply list_elem_of_omap in Hin as (row & Hin & Hrow).
    apply first_where_key_None in E.
    eapply Forall_forall in E; [| done]. simpl in E.
    apply key_is_key_of in Hrow. congruence.
Qed.

(** ** Replaying a sequence of writes

    All the objects written in a run have the same columns, none of them
    the key.  On a table the run has already been applied to, the same writes
    find every key, change nothing, and add nothing. *)

Section Replay.
Variable cols : gset string.
Hypothesis key_not_col : "key" ∉ cols.

Local Abbreviation shaped ops := (Forall (λ op : string * Row, dom op.2 = cols) ops).

Lemma shaped_key (data : Row) : dom data = cols → data !! "key" = None.
Proof. intros <-. by apply not_elem_of_dom. Qed.

Lemma union_absorb (d d' r : Row) : dom d' = dom d → d ∪ (d' ∪ r) = d ∪ r.
Proof.
  intros Hdom. apply map_eq. intros c. rewrite !lookup_union.
  destruct (d !! c) eqn:E; [by destruct (d' !! c), (r !! c) |].
  apply not_elem_of_dom in E. rewrite <-Hdom in E.
  apply not_elem_of_dom in E. rewrite E. by destruct (r !! c).
Qed.

Lemma replay_cons op ops row :
  replay (op :: ops) row = replay ops (set_where_key op.1 op.2 row).
Proof. reflexivity. Qed.

Lemma apply_writes_cons op ops rows :
  apply_writes (op :: ops) rows = apply_writes ops (upsert op.1 op.2 rows).
Proof. reflexivity. Qed.

Lemma replay_snoc ops op row :
  replay (ops ++ [op]) row = set_where_key op.1 op.2 (replay ops row).
Proof. unfold replay. by rewrite foldl_app. Qed.

Lemma apply_writes_snoc ops op rows :
  apply_writes (ops ++ [op]) rows = upsert op.1 op.2 (apply_writes ops rows).
Proof. unfold apply_writes. by rewrite foldl_app. Qed.

Lemma key_is_replay k ops row :
  shaped ops → key_is k (replay ops row) = key_is k row.
Proof.
  intros Hs. revert row.
  induction Hs as [|op ops Hop Hs IH]; intros row; [done |].
  rewrite replay_cons, IH. apply key_is_set_where_key. by apply shaped_key.
Qed.

Lemma union_replay (data : Row) ops row :
  shaped ops → dom data = cols → data ∪ replay ops row = data ∪ row.
Proof.
  intros Hs Hd. revert row.
  induction Hs as [|op ops Hop Hs IH]; intros row; [done |].
  rewrite replay_cons, IH. unfold set_where_key.
  destruct (key_is op.1 row); [| done].
  apply union_absorb. congruence.
Qed.

Lemma replay_other ops row :
  Forall (λ op : string * Row, key_is op.1 row = false) ops →
  replay ops row = row.
Proof.
  induction 1 as [|op ops Hop Hs IH]; [done |].
  rewrite replay_cons. unfold set_where_key. by rewrite Hop.
Qed.

Lemma apply_writes_mono k ops rows :
  shaped ops →
  is_Some (first_where_key k rows) →
  is_Some (first_where_key k (apply_writes ops rows)).
Proof.
  intros Hs. revert rows.
  induction Hs as [|op ops Hop Hs IH]; intros rows H; [done |].
  rewrite apply_writes_cons. apply IH.
  apply first_where_key_upsert_mono; [| done].
  by apply shaped_key.
Qed.

Lemma apply_writes_has_keys ops rows :
  shaped ops →
  Forall (λ op : string * Row, is_Some (first_where_key op.1 (apply_writes ops rows))) ops.
Proof.
  intros Hs. revert rows.
  induction Hs as [|op ops Hop Hs IH]; intros rows; [done |].
  constructor; [| apply IH].
  rewrite apply_writes_cons. apply apply_writes_mono; [done |].
  apply first_where_key_upsert. by apply shaped_key.
Qed.

Lemma apply_writes_existing ops rows :
  shaped ops →
  Forall (λ op : string * Row, is_Some (first_where_key op.1 rows)) ops →
  apply_writes ops rows = replay ops <$> rows.
Proof.
  intros Hs. revert rows.
  induction Hs as [|op ops Hop Hs IH]; intros rows H.
  - cbn. by rewrite list_fmap_id.
  - apply Forall_cons in H as [[row Hrow] H].
    rewrite apply_writes_cons.
    assert (upsert op.1 op.2 rows = set_where_key op.1 op.2 <$> rows) as ->.
    { unfold upsert. by rewrite Hrow. }
    rewrite IH.
    + by rewrite <-list_fmap_compose.
    + eapply Forall_impl; [exact H |]. intros op' Hop'. simpl in *.
      apply (first_where_key_update _ _ _ _ (shaped_key _ Hop) Hop').
Qed.

Lemma set_where_key_fresh k (data : Row) :
  dom data = cols →
  set_where_key k data (<["key" := VStr k]> data) = <["key" := VStr k]> data.
Proof.
  intros Hd. unfold set_where_key.
  assert (key_is k (<["key" := VStr k]> data) = true) as ->.
  { apply key_is_true, lookup_insert_eq. }
  apply map_eq. intros c. rewrite lookup_union.
  destruct (decide (c = "key")) as [->|Hc].
  - rewrite (shaped_key _ Hd), lookup_insert_eq. done.
  - rewrite lookup_insert_ne by done. by destruct (data !! c).
Qed.

Lemma apply_writes_settled ops rows :
  shaped ops → Forall (λ row, replay ops row = row) (apply_writes ops rows).
Proof.
  induction ops as [|op ops IH] using rev_ind; intros Hs.
  - cbn. apply Forall_forall. done.
  - apply Forall_app in Hs as [Hs Hop]. rewrite Forall_singleton in Hop.
    specialize (IH Hs). rewrite apply_writes_snoc.
    pose proof (shaped_key _ Hop) as Hk.
    set (X := apply_writes ops rows) in *.
    assert (∀ row, row ∈ X →
              replay (ops ++ [op]) (set_where_key op.1 op.2 row)
              = set_where_key op.1 op.2 row) as Hold.
    { intros row Hin. rewrite replay_snoc.
      eapply Forall_forall in IH; [| exact Hin]. simpl in IH.
      unfold set_where_key at 2 3. destruct (key_is op.1 row) eqn:E.
      - unfold set_where_key.
        rewrite key_is_replay, key_is_union, E by done.
        rewrite union_replay by done. apply union_absorb. done.
      - rewrite IH. unfold set_where_key. by rewrite E. }
    unfold upsert. destruct (first_where_key op.1 X) as [r0|] eqn:E.
    + unfold update_rows. apply Forall_fmap, Forall_forall.
      intros row Hin. by apply Hold.
    + apply first_where_key_None in E. apply Forall_app. split.
      * apply Forall_forall. intros row Hin.
        specialize (Hold row Hin).
        eapply Forall_forall in E; [| exact Hin]. simpl in E.
        assert (set_where_key op.1 op.2 row = row) as Hsame.
        { unfold set_where_key. by rewrite E. }
        by rewrite Hsame in Hold.
      * apply Forall_singleton. rewrite replay_snoc.
        rewrite replay_other; [by apply set_where_key_fresh |].
        pose proof (apply_writes_has_keys ops rows Hs) as Hkeys.
        fold X in Hkeys. eapply Forall_impl; [exact Hkeys |].
        intros op' Hop'. simpl in *. apply key_is_false.
        rewrite lookup_insert_eq. intros [= Heq].
        apply first_where_key_None in E. rewrite <-Heq, E in Hop'.
        by destruct Hop'.
Qed.

Lemma apply_writes_idem ops rows :
  shaped ops →
  apply_writes ops (apply_writes ops rows) = apply_writes ops rows.
Proof.
  intros Hs. rewrite (apply_writes_existing ops (apply_writes ops rows)).
  - apply list_eq. intros i. rewrite list_lookup_fmap.
    destruct (apply_writes ops rows !! i) as [row|] eqn:E; [| done].
    cbn. f_equal.
    pose proof (apply_writes_settled ops rows Hs) as H.
    by eapply Forall_lookup in H.
  - done.
  - by apply apply_writes_has_keys.
Qed.

Lemma apply_writes_length ops rows :
  shaped ops →
  Forall (λ op : string * Row, is_Some (first_where_key op.1 rows)) ops →
  length (apply_writes ops rows) = length rows.
Proof.
  intros Hs H. rewrite apply_writes_existing by done. apply length_fmap.
Qed.
End Replay.

(** ** The loop and [main] *)

Lemma for_of_cons {A} (x : A) xs (body : A → M unit) env w :
  for_of (x :: xs) body env w =
    match body x env w with
    | (w', inr _) => for_of xs body env w'
    | (w', inl e) => (w', inl e)
    end.
Proof. reflexivity. Qed.

Lemma for_of_app {A} (xs ys : list A) (body : A → M unit) env w w' :
  for_of xs body env w = (w', inr tt) →
  for_of (xs ++ ys) body env w = for_of ys body env w'.
Proof.
  revert w. induction xs as [|x xs IH]; intros w H.
  - injection H as ->. done.
  - rewrite <-app_comm_cons, for_of_cons. rewrite for_of_cons in H.
    destruct (body x env w) as [w1 [err|[]]]; [done |]. by apply IH.
Qed.

Lemma main_unfold env w :
  main env w =
    if rejects env (calls w)
    then (release_jellyfinDb (release_kodiDb
            (print (LogError (StoreError (calls w))) (tick (print LogConnecting w)))),
          inr tt)
    else
      match for_of (select_watched (files w)) sync_entry env (at_loop_entry w) with
      | (w', inr _) =>
          (release_jellyfinDb (release_kodiDb (print LogComplete w')), inr tt)
      | (w', inl err) =>
          (release_jellyfinDb (release_kodiDb (print (LogError err) w')), inr tt)
      end.
Proof.
  unfold main, try_finally, try_catch, kodi_select_watched, console_log, gets,
    kodiDb_destroy, jellyfinDb_destroy, at_loop_entry.
  rewrite !bind_unfold. unfold store_call. fields.
  destruct (rejects env (calls w)); [reflexivity |].
  cbv beta iota. fields. rewrite !bind_unfold.
  destruct (for_of _ sync_entry env _) as [w' [err|[]]]; reflexivity.
Qed.

(** Without rejection the loop runs to its end and leaves in [UserDatas]
    the writes of its entries, applied in order. *)
Lemma for_of_reliable env watched w :
  reliable env →
  ∃ w', for_of watched sync_entry env w = (w', inr tt)
        ∧ files w' = files w
        ∧ TypedBaseItems w' = TypedBaseItems w
        ∧ UserDatas w' =
            apply_writes (writes_of env (TypedBaseItems w) (dates w) watched)
                         (UserDatas w).
Proof.
  intros Hr. revert w. induction watched as [|e watched IH]; intros w.
  - by exists w.
  - rewrite for_of_cons. cbn [writes_of].
    destruct (first_like (pattern_of e) (TypedBaseItems w)) as [it|] eqn:Hm.
    + rewrite (sync_entry_matched env w e it Hr Hm).
      destruct (Js.truthy (lastPlayed e));
        match goal with |- context [for_of _ _ _ ?w1] =>
          destruct (IH w1) as (w' & Hrun & Hf & Hi & Hu) end;
        exists w'; by rewrite Hrun, Hf, Hi, Hu.
    + rewrite (sync_entry_unmatched env w e (Hr _) Hm).
      destruct (IH (tick w)) as (w' & Hrun & Hf & Hi & Hu).
      exists w'. by rewrite Hrun, Hf, Hi, Hu.
Qed.

Lemma run_reliable env w :
  reliable env →
  files (run env w) = files w
  ∧ TypedBaseItems (run env w) = TypedBaseItems w
  ∧ UserDatas (run env w) =
      apply_writes (writes_of env (TypedBaseItems w) (dates w) (select_watched (files w)))
                   (UserDatas w).
Proof.
  intros Hr. unfold run. rewrite main_unfold, (Hr (calls w)).
  destruct (for_of_reliable env (select_watched (files w)) (at_loop_entry w) Hr)
    as (w' & -> & Hf & Hi & Hu).
  cbn [fst]. fields. by rewrite Hf, Hi, Hu.
Qed.

(** ** The writes of a run *)

Lemma writes_of_shaped env items d watched :
  Forall (λ op : string * Row, dom op.2 = payload_columns)
         (writes_of env items d watched).
Proof.
  revert d. induction watched as [|e watched IH]; intros d; [constructor |].
  cbn [writes_of]. destruct (first_like (pattern_of e) items); [| apply IH].
  constructor; [apply data_of_dom | apply IH].
Qed.

Lemma writes_of_keys env items d watched e it :
  e ∈ watched →
  first_like (pattern_of e) items = Some it →
  ∃ data, (UserDataKey it, data) ∈ writes_of env items d watched.
Proof.
  intros Hin Hm. revert d.
  induction watched as [|e' watched IH]; intros d; [by apply elem_of_nil in Hin |].
  cbn [writes_of]. apply elem_of_cons in Hin as [<-|Hin].
  - rewrite Hm. eexists. apply elem_of_cons. by left.
  - destruct (first_like (pattern_of e') items).
    + destruct (IH Hin (if Js.truthy (lastPlayed e') then d else S d)) as [data H].
      exists data. apply elem_of_cons. by right.
    + by apply IH.
Qed.

Lemma data_of_without_date e s s' :
  delete "lastPlayedDate" (data_of e s) = delete "lastPlayedDate" (data_of e s').
Proof. unfold data_of. by rewrite !delete_insert_eq. Qed.

Lemma writes_of_without_date env1 env2 items d1 d2 watched :
  without "lastPlayedDate" (writes_of env1 items d1 watched)
  = without "lastPlayedDate" (writes_of env2 items d2 watched).
Proof.
  revert d1 d2. induction watched as [|e watched IH]; intros d1 d2; [done |].
  cbn [writes_of]. destruct (first_like (pattern_of e) items); [| apply IH].
  unfold without in *. rewrite !fmap_cons.
  rewrite (IH (if Js.truthy (lastPlayed e) then d1 else S d1)
              (if Js.truthy (lastPlayed e) then d2 else S d2)).
  cbn [fst snd]. by rewrite (data_of_without_date e _ (stamp env2 d2 e)).
Qed.

Lemma writes_of_truthy env1 env2 items d1 d2 watched :
  (∀ e, e ∈ watched → is_Some (first_like (pattern_of e) items) →
        Js.truthy (lastPlayed e) = true) →
  writes_of env1 items d1 watched = writes_of env2 items d2 watched.
Proof.
  revert d1 d2. induction watched as [|e watched IH]; intros d1 d2 H; [done |].
  cbn [writes_of].
  assert (∀ e', e' ∈ watched → is_Some (first_like (pattern_of e') items) →
                Js.truthy (lastPlayed e') = true) as H'.
  { intros e' Hin. apply H, elem_of_cons. by right. }
  destruct (first_like (pattern_of e) items) as [it|] eqn:Hm; [| by apply IH].
  assert (Js.truthy (lastPlayed e) = true) as Ht.
  { apply H; [apply elem_of_cons; by left | by rewrite Hm]. }
  unfold stamp. rewrite Ht. f_equal. by apply IH.
Qed.

Lemma key_is_delete c k (row : Row) :
  c ≠ "key" → key_is k (delete c row) = key_is k row.
Proof. intros Hc. unfold key_is. by rewrite lookup_delete_ne. Qed.

Lemma first_where_key_delete c k rows :
  c ≠ "key" →
  first_where_key k (delete c <$> rows) = delete c <$> first_where_key k rows.
Proof.
  intros Hc. unfold first_where_key.
  induction rows as [|row rows IH]; [done |].
  rewrite fmap_cons, !filter_cons, key_is_delete by done.
  destruct (decide (key_is k row = true)); [done | apply IH].
Qed.

Lemma upsert_delete c k (data : Row) rows :
  c ≠ "key" →
  delete c <$> upsert k data rows = upsert k (delete c data) (delete c <$> rows).
Proof.
  intros Hc. unfold upsert. rewrite first_where_key_delete by done.
  destruct (first_where_key k rows) as [row|]; cbn [fmap option_fmap option_map].
  - unfold update_rows. rewrite <-!list_fmap_compose.
    apply list_fmap_ext. intros i r _. cbn. unfold set_where_key.
    rewrite key_is_delete by done.
    destruct (key_is k r); [| done]. apply delete_union.
  - rewrite fmap_app. cbn. by rewrite delete_insert_ne.
Qed.

Lemma apply_writes_delete c ops rows :
  c ≠ "key" →
  delete c <$> apply_writes ops rows = apply_writes (without c ops) (delete c <$> rows).
Proof.
  intros Hc. revert rows. induction ops as [|op ops IH]; intros rows; [done |].
  unfold without. rewrite fmap_cons. fold (without c ops).
  rewrite !apply_writes_cons, IH, upsert_delete by done. done.
Qed.

Lemma without_shaped c ops (cols : gset string) :
  Forall (λ op : string * Row, dom op.2 = cols) ops →
  Forall (λ op : string * Row, dom op.2 = cols ∖ {[c]}) (without c ops).
Proof.
  intros H. unfold without. apply Forall_fmap.
  eapply Forall_impl; [exact H |]. intros op Hop. cbn.
  by rewrite dom_delete_L, Hop.
Qed.

(** ** What one matched entry writes *)

Lemma upsert_written k (data : Row) rows row c v :
  data !! "key" = None →
  row ∈ upsert k data rows →
  key_is k row = true →
  data !! c = Some v →
  row !! c = Some v.
Proof.
  intros Hd Hin Hk Hc. unfold upsert in Hin.
  destruct (first_where_key k rows) as [r0|] eqn:E.
  - unfold update_rows in Hin. apply list_elem_of_fmap in Hin as (r & -> & Hr).
    rewrite key_is_set_where_key in Hk by done.
    unfold set_where_key. rewrite Hk. by apply lookup_union_Some_l.
  - apply first_where_key_None in E.
    apply elem_of_app in Hin as [Hin | Hin].
    + eapply Forall_forall in E; [| exact Hin]. simpl in E. congruence.
    + apply list_elem_of_singleton in Hin as ->.
      rewrite lookup_insert_ne; [done |]. intros <-. congruence.
Qed.

(** A matched entry, in a run without rejection, leaves at least one row
    for the key of its item, and every such row carries the computed
    [lastPlayedDate]; the clock is read exactly when [lastPlayed] is falsy. *)
Lemma sync_entry_stamp env w e it :
  reliable env →
  first_like (pattern_of e) (TypedBaseItems w) = Some it →
  ∃ w', sync_entry e env w = (w', inr tt)
        ∧ is_Some (first_where_key (UserDataKey it) (UserDatas w'))
        ∧ (∀ row, row ∈ UserDatas w' →
                  key_is (UserDataKey it) row = true →
                  row !! "lastPlayedDate" = Some (VStr (stamp env (dates w) e)))
        ∧ dates w' = (if Js.truthy (lastPlayed e) then dates w else S (dates w)).
Proof.
  intros Hr Hm. eexists. split; [by apply sync_entry_matched |].
  fields. split; [| split].
  - apply first_where_key_upsert, data_of_key.
  - intros row Hin Hk.
    eapply upsert_written; [apply data_of_key | exact Hin | exact Hk | reflexivity].
  - by destruct (Js.truthy (lastPlayed e)).
Qed.

(** C1.  For a matched entry whose item has no row in [UserDatas], the
    iteration appends exactly one row; its key is the [UserDataKey] of the
    item, and it holds [userId = 1], [played = 1] (true), [isFavorite = 0]
    (false), [playbackPositionTicks = 0] and the [playCount] of the entry,
    in the columns of the payload and the key only. *)
Theorem sync_entry_inserts env w e it :
  reliable env →
  first_like (pattern_of e) (TypedBaseItems w) = Some it →
  first_where_key (UserDataKey it) (UserDatas w) = None →
  ∃ w' row,
    sync_entry e env w = (w', inr tt)
    ∧ UserDatas w' = UserDatas w ++ [row]
    ∧ row !! "key" = Some (VStr (UserDataKey it))
    ∧ row !! "userId" = Some (VNum 1)
    ∧ row !! "played" = Some (VNum 1)
    ∧ row !! "isFavorite" = Some (VNum 0)
    ∧ row !! "playbackPositionTicks" = Some (VNum 0)
    ∧ row !! "playCount" = Some (VNum (playCount e))
    ∧ dom row = {["key"]} ∪ payload_columns.
Proof.
  intros Hr Hm Hnone. do 2 eexists.
  split; [by apply sync_entry_matched |].
  fields. unfold upsert. rewrite Hnone. split; [reflexivity |].
  repeat (split; [reflexivity |]).
  by rewrite dom_insert_L, data_of_dom.
Qed.

(** C7.  For a matched entry whose item has a row in [UserDatas], the
    iteration keeps the number and order of the rows; in every row selected
    by the key the columns of the payload take the values of [data] and every
    other column, the key among them, keeps its value; the other rows are
    untouched. *)
Theorem sync_entry_updates env w e it existing :
  reliable env →
  first_like (pattern_of e) (TypedBaseItems w) = Some it →
  first_where_key (UserDataKey it) (UserDatas w) = Some existing →
  ∃ w',
    sync_entry e env w = (w', inr tt)
    ∧ length (UserDatas w') = length (UserDatas w)
    ∧ ∀ i row, UserDatas w !! i = Some row →
        ∃ row', UserDatas w' !! i = Some row'
          ∧ if key_is (UserDataKey it) row
            then (∀ c, c ∈ payload_columns →
                       is_Some (row' !! c)
                       ∧ row' !! c = data_of e (stamp env (dates w) e) !! c)
                 ∧ (∀ c, c ∉ payload_columns → row' !! c = row !! c)
                 ∧ row' !! "key" = row !! "key"
            else row' = row.
Proof.
  intros Hr Hm Hex. eexists. split; [by apply sync_entry_matched |].
  fields. unfold upsert. rewrite Hex. unfold update_rows. split.
  - apply length_fmap.
  - intros i row Hi. eexists. split.
    { rewrite list_lookup_fmap, Hi. reflexivity. }
    unfold set_where_key. destruct (key_is (UserDataKey it) row); [| done].
    set (data := data_of e (stamp env (dates w) e)).
    assert (dom data = payload_columns) as Hdom by apply data_of_dom.
    split; [| split].
    + intros c Hc. rewrite <-Hdom in Hc. apply elem_of_dom in Hc as [v Hv].
      rewrite (lookup_union_Some_l _ _ _ _ Hv). rewrite Hv. by split.
    + intros c Hc. rewrite <-Hdom in Hc. apply not_elem_of_dom in Hc.
      by apply lookup_union_r.
    + by apply lookup_union_r.
Qed.

(** X16.  An entry for which the query returns no item costs that one
    query: the iteration ends normally, [UserDatas] and the console are as
    before, and the loop goes on with the remaining entries. *)
Theorem sync_entry_skips env w e rest :
  rejects env (calls w) = false →
  first_like (pattern_of e) (TypedBaseItems w) = None →
  ∃ w',
    sync_entry e env w = (w', inr tt)
    ∧ UserDatas w' = UserDatas w
    ∧ console w' = console w
    ∧ calls w' = S (calls w)
    ∧ for_of (e :: rest) sync_entry env w = for_of rest sync_entry env w'.
Proof.
  intros Hc Hm. exists (tick w).
  pose proof (sync_entry_unmatched env w e Hc Hm) as H.
  repeat (split; [done |]). by rewrite for_of_cons, H.
Qed.

(** ** The fallback date *)

Lemma has_char_app c s1 s2 :
  has_char c (s1 +:+ s2) = has_char c s1 || has_char c s2.
Proof.
  induction s1 as [|a s1 IH]; [done |].
  change (String a s1 +:+ s2) with (String a (s1 +:+ s2)).
  cbn [has_char]. by rewrite IH, orb_assoc.
Qed.

Lemma string_of_uint_no_dot u : has_char "." (NilEmpty.string_of_uint u) = false.
Proof. induction u; cbn; done. Qed.

Lemma toString_abs_no_dot number : has_char "." (toString_abs number) = false.
Proof.
  unfold toString_abs, NilZero.string_of_uint.
  destruct (N.to_uint (Z.abs_N number)) eqn:E; try done;
    rewrite <-E; apply string_of_uint_no_dot.
Qed.

Lemma zeros_no_dot n : has_char "." (Js.zeros n) = false.
Proof. induction n; cbn; done. Qed.

Lemma addLeadingZeros_no_dot number targetLength :
  has_char "." (addLeadingZeros number targetLength) = false.
Proof.
  unfold addLeadingZeros, Js.padStart0.
  rewrite !has_char_app, zeros_no_dot, toString_abs_no_dot.
  by destruct (number <? 0)%Z.
Qed.

Lemma formatISO9075_no_dot date : has_char "." (formatISO9075 date) = false.
Proof.
  unfold formatISO9075. cbv zeta.
  by rewrite !has_char_app, !addLeadingZeros_no_dot.
Qed.

Lemma formatISO9075_has_hyphen date : has_char "-" (formatISO9075 date) = true.
Proof.
  unfold formatISO9075. cbv zeta. rewrite has_char_app.
  apply orb_true_iff. left. rewrite has_char_app.
  apply orb_true_iff. right. done.
Qed.

Lemma occurrences_suffix s :
  has_char "." s = false → occurrences ".000Z" (s +:+ ".000Z") = 1.
Proof.
  induction s as [|a s IH]; [done |].
  cbn [has_char]. intros H. apply orb_false_iff in H as [Ha Hs].
  change (String a s +:+ ".000Z") with (String a (s +:+ ".000Z")).
  cbn [occurrences String.prefix]. rewrite (IH Hs).
  destruct (ascii_dec "." a) as [<-|Hne]; [discriminate Ha | done].
Qed.

Lemma addLeadingZeros_two n :
  (0 ≤ n ≤ 99)%Z → addLeadingZeros n 2 = two_digits n.
Proof.
  intros Hn.
  assert (forallb (λ k : nat, String.eqb (addLeadingZeros (Z.of_nat k) 2)
                                (two_digits (Z.of_nat k)))
            (seq 0 100) = true) as Hall by (vm_compute; reflexivity).
  rewrite forallb_forall in Hall.
  specialize (Hall (Z.to_nat n)). rewrite Z2Nat.id in Hall by lia.
  apply String.eqb_eq, Hall, in_seq. lia.
Qed.

Lemma addLeadingZeros_four n :
  (0 ≤ n ≤ 9999)%Z → addLeadingZeros n 4 = four_digits n.
Proof.
  intros Hn.
  assert (forallb (λ k : nat, String.eqb (addLeadingZeros (Z.of_nat k) 4)
                                (four_digits (Z.of_nat k)))
            (seq 0 (100 * 100)) = true) as Hall by (vm_compute; reflexivity).
  rewrite forallb_forall in Hall.
  specialize (Hall (Z.to_nat n)). rewrite Z2Nat.id in Hall by lia.
  apply String.eqb_eq, Hall, in_seq. lia.
Qed.

Lemma append_assoc (s1 s2 s3 : string) :
  (s1 +:+ s2) +:+ s3 = s1 +:+ (s2 +:+ s3).
Proof.
  induction s1 as [|c s1 IH]; [done |].
  change (String c s1 +:+ s2) with (String c (s1 +:+ s2)).
  change (String c (s1 +:+ s2) +:+ s3) with (String c ((s1 +:+ s2) +:+ s3)).
  by rewrite IH.
Qed.

Lemma append_length (s1 s2 : string) :
  String.length (s1 +:+ s2) = (String.length s1 + String.length s2)%nat.
Proof.
  induction s1 as [|c s1 IH]; [done |].
  change (String c s1 +:+ s2) with (String c (s1 +:+ s2)).
  cbn [String.length]. by rewrite IH.
Qed.

(** On the dates of the calendar, [formatISO9075] gives the timestamp. *)
Lemma formatISO9075_timestamp date :
  calendar_date date → formatISO9075 date = timestamp date.
Proof.
  intros (Hy & Hm & Hd & Hh & Hmin & Hs). unfold formatISO9075, timestamp.
  cbv zeta. rewrite (addLeadingZeros_four _ Hy).
  rewrite !addLeadingZeros_two by lia. by rewrite !append_assoc.
Qed.

Lemma timestamp_length date : String.length (timestamp date) = 19%nat.
Proof. reflexivity. Qed.

(** C6.  For a matched entry, in a run without rejection, every row of the
    key carries the same [lastPlayedDate].  When the entry has no last-played
    value ([lastPlayed] is [null]), the clock is read once, during this
    iteration, and the date written is what [formatISO9075] makes of that
    reading, followed by [.000Z], which occurs once in it; for a date of the
    calendar this is its timestamp [yyyy-MM-dd HH:mm:ss.000Z], of 24
    characters.  When [lastPlayed] is a non-empty string, the date written
    is that string followed by [.000Z], and the clock is not read. *)
Theorem lastPlayedDate_written env w e it :
  reliable env →
  first_like (pattern_of e) (TypedBaseItems w) = Some it →
  ∃ w' written,
    sync_entry e env w = (w', inr tt)
    ∧ is_Some (first_where_key (UserDataKey it) (UserDatas w'))
    ∧ (∀ row, row ∈ UserDatas w' →
              key_is (UserDataKey it) row = true →
              row !! "lastPlayedDate" = Some (VStr written))
    ∧ (lastPlayed e = None →
         written = formatISO9075 (clock env (dates w)) +:+ ".000Z"
         ∧ dates w' = S (dates w)
         ∧ occurrences ".000Z" written = 1
         ∧ (calendar_date (clock env (dates w)) →
            written = timestamp (clock env (dates w)) +:+ ".000Z"
            ∧ String.length written = 24%nat))
    ∧ (∀ s, lastPlayed e = Some s → s ≠ "" →
         written = s +:+ ".000Z" ∧ dates w' = dates w).
Proof.
  intros Hr Hm.
  destruct (sync_entry_stamp env w e it Hr Hm) as (w' & Hrun & Hex & Hrows & Hd).
  exists w', (stamp env (dates w) e). repeat (split; [done |]). split.
  - intros Hnull. unfold stamp. rewrite Hnull in *. cbn [Js.truthy] in *.
    split; [done |]. split; [done |].
    split; [apply occurrences_suffix, formatISO9075_no_dot |].
    intros Hcal. rewrite (formatISO9075_timestamp _ Hcal). split; [done |].
    by rewrite append_length, timestamp_length.
  - intros s Hs Hne. unfold stamp. rewrite Hs in *.
    destruct s as [|a s]; [done |]. done.
Qed.

(** C10.  For a matched entry whose [lastPlayed] is the empty string, the
    date written is the one read from the clock, followed by [.000Z], as for
    [null], and not the bare suffix. *)
Theorem lastPlayedDate_empty env w e it :
  reliable env →
  first_like (pattern_of e) (TypedBaseItems w) = Some it →
  lastPlayed e = Some "" →
  ∃ w' written,
    sync_entry e env w = (w', inr tt)
    ∧ is_Some (first_where_key (UserDataKey it) (UserDatas w'))
    ∧ (∀ row, row ∈ UserDatas w' →
              key_is (UserDataKey it) row = true →
              row !! "lastPlayedDate" = Some (VStr written))
    ∧ written = formatISO9075 (clock env (dates w)) +:+ ".000Z"
    ∧ written = stamp env (dates w) (mkKodiEntry (strFilename e) None (playCount e))
    ∧ written ≠ "" +:+ ".000Z".
Proof.
  intros Hr Hm Hempty.
  destruct (sync_entry_stamp env w e it Hr Hm) as (w' & Hrun & Hex & Hrows & Hd).
  exists w', (stamp env (dates w) e). repeat (split; [done |]).
  unfold stamp. rewrite Hempty. cbn [Js.truthy lastPlayed].
  repeat (split; [done |]).
  intros H. apply (f_equal (has_char "-")) in H.
  rewrite has_char_app, formatISO9075_has_hyphen in H. discriminate H.
Qed.

(** ** Runs in which store calls may reject *)

(** Follow the body of the loop through every outcome of its store calls. *)
Ltac explore :=
  repeat first
    [ rewrite bind_unfold
    | progress unfold store_call, mret, M_ret
    | progress cbv beta iota
    | progress fields
    | match goal with
      | |- context [if rejects ?env ?n then _ else _] =>
          destruct (rejects env n) eqn:?
      | |- context [match first_like ?p ?l with _ => _ end] =>
          destruct (first_like p l) eqn:?
      | |- context [match first_where_key ?k ?l with _ => _ end] =>
          destruct (first_where_key k l) eqn:?
      | |- context [if Js.truthy ?v then _ else _] =>
          destruct (Js.truthy v) eqn:?
      end ].

(** A call that went through is not the one that rejects. *)
Ltac not_rejected n :=
  repeat match goal with
    | H : rejects ?env ?m = false, Hn : rejects ?env n = true |- _ =>
        assert (m ≠ n) by (intros ?; congruence); clear H
    end.

Lemma sync_entry_any env w e :
  ∃ w' r,
    sync_entry e env w = (w', r)
    ∧ match r with
      | inl _ => UserDatas w' = UserDatas w ∧ console w' = console w
      | inr _ =>
          UserDatas w' = UserDatas w
          ∨ ∃ it data, data !! "key" = None
                       ∧ UserDatas w' = upsert (UserDataKey it) data (UserDatas w)
      end
    ∧ ∀ n, rejects env n = true → (calls w ≤ n)%nat →
           match r with
           | inl _ => (calls w' ≤ S n)%nat
           | inr _ => (calls w' ≤ n)%nat
           end.
Proof.
  unfold_M. explore.
  all: do 2 eexists; split; [reflexivity |]; fields; split;
    [| intros n Hn Hle; not_rejected n; fields; lia].
  all: try (split; reflexivity).
  all: try (left; reflexivity).
  all: right; do 2 eexists; (split; [apply data_of_key |]); unfold upsert;
    match goal with H : first_where_key _ _ = _ |- _ => rewrite H end;
    reflexivity.
Qed.

Lemma for_of_any env watched w :
  ∃ w' r,
    for_of watched sync_entry env w = (w', r)
    ∧ (unique_keys (UserDatas w) → unique_keys (UserDatas w'))
    ∧ ∀ n, rejects env n = true → (calls w ≤ n)%nat →
           match r with
           | inl _ => (calls w' ≤ S n)%nat
           | inr _ => (calls w' ≤ n)%nat
           end.
Proof.
  revert w. induction watched as [|e watched IH]; intros w.
  - exists w, (inr tt). by repeat split.
  - rewrite for_of_cons.
    destruct (sync_entry_any env w e) as (w1 & r1 & -> & Hrows & Hcalls).
    destruct r1 as [err|[]].
    + exists w1, (inl err). split; [done |]. split; [| done].
      destruct Hrows as [-> _]. done.
    + destruct (IH w1) as (w' & r & -> & Hu & Hc).
      exists w', r. split; [done |]. split.
      * intros H. apply Hu.
        destruct Hrows as [-> | (it & data & Hd & ->)]; [done |].
        by apply upsert_unique_keys.
      * intros n Hn Hle. apply Hc; [done |]. by apply Hcalls.
Qed.

(** C8.  Whatever the store calls do, if each key identifies at most one
    row of [UserDatas] before a run, so it does after it: the run never
    makes a second row for a key, and several entries matching one item
    share its row. *)
Theorem run_unique_keys env w :
  unique_keys (UserDatas w) → unique_keys (UserDatas (run env w)).
Proof.
  intros Hu. unfold run. rewrite main_unfold.
  destruct (rejects env (calls w)); [done |].
  destruct (for_of_any env (select_watched (files w)) (at_loop_entry w))
    as (w' & r & -> & Hrows & _).
  destruct r as [err|[]]; cbn [fst]; fields; by apply Hrows.
Qed.

(** C9.  A run always ends normally with both connections destroyed.  Once a
    store call has rejected, no other store call is issued.  When the
    rejection comes while the loop is at an entry, the entries before it
    having been dealt with, the run ends with [UserDatas] as those entries
    left it, reports the error, and has issued no call beyond the rejected
    one: the entries after it are not looked at. *)
Theorem main_abort_release env w :
  (∃ w', main env w = (w', inr tt)
         ∧ kodiDb_destroyed w' = true
         ∧ jellyfinDb_destroyed w' = true)
  ∧ (∀ n, rejects env n = true → (calls w ≤ n)%nat → (calls (run env w) ≤ S n)%nat)
  ∧ (∀ before e after w1 w2 err,
       rejects env (calls w) = false →
       select_watched (files w) = before ++ e :: after →
       for_of before sync_entry env (at_loop_entry w) = (w1, inr tt) →
       sync_entry e env w1 = (w2, inl err) →
       UserDatas (run env w) = UserDatas w1
       ∧ console (run env w) = console w1 ++ [LogError err]
       ∧ calls (run env w) = calls w2
       ∧ err = StoreError (calls w2 - 1)).
Proof.
  split; [| split].
  - rewrite main_unfold. destruct (rejects env (calls w)).
    + by eexists.
    + destruct (for_of _ sync_entry env _) as [w' [err|[]]]; by eexists.
  - intros n Hn Hle. unfold run. rewrite main_unfold.
    destruct (rejects env (calls w)) eqn:Hc.
    + cbn [fst]. fields. lia.
    + assert (calls w ≠ n) by (intros ?; congruence).
      destruct (for_of_any env (select_watched (files w)) (at_loop_entry w))
        as (w' & r & -> & _ & Hcalls).
      specialize (Hcalls n Hn). unfold at_loop_entry in Hcalls.
      revert Hcalls. fields. intros Hcalls.
      destruct r as [err|[]]; cbn [fst]; fields; lia.
  - intros before e after w1 w2 err Hc Hsplit Hbefore Hfail.
    unfold run. rewrite main_unfold, Hc, Hsplit.
    rewrite (for_of_app _ _ _ _ _ _ Hbefore), for_of_cons, Hfail.
    cbn [fst]. fields.
    destruct (sync_entry_any env w1 e) as (w2' & r & Heq & Hrows & _).
    rewrite Hfail in Heq. injection Heq as <- <-.
    destruct Hrows as [-> ->]. repeat (split; [done |]).
    revert Hfail. clear. unfold_M. explore; intros [= <- <-]; fields;
      f_equal; lia.
Qed.

(** ** The matcher *)

(** A euro sign, three bytes in UTF-8, is one character for [_]. *)
Example like_utf8 :
  let euro := String "226"%char (String "130"%char (String "172"%char "")) in
  like "a_b" ("a" +:+ euro +:+ "b") = true
  ∧ like "a__b" ("a" +:+ euro +:+ "b") = false
  ∧ like "a___b" ("a" +:+ euro +:+ "b") = false
  ∧ like "%__b" (euro +:+ "b") = false
  ∧ like "%_b" (euro +:+ "b") = true
  ∧ like ("%" +:+ euro +:+ "%") ("a" +:+ euro +:+ "b") = true.
Proof. repeat split; reflexivity. Qed.

Example like_examples :
  like "%Show/S01E01.mkv%" "/mnt/media/Show/S01E01.mkv" = true
  ∧ like "%Show/S01E01.mkv%" "/mnt/media/Show/S01E02.mkv" = false
  ∧ like "S01E01.mkv%" "/mnt/media/Show/S01E01.mkv" = false
  ∧ like "a_c" "abc" = true
  ∧ like "a_c" "ac" = false
  ∧ like "a%c" "ac" = true
  ∧ like "abc" "ABC" = true.
Proof. repeat split; reflexivity. Qed.

Lemma like_percent_cons pattern c s :
  like (String "%" pattern) (String c s)
  = like pattern (String c s) || like (String "%" pattern) s.
Proof. reflexivity. Qed.

Lemma like_percent_here pattern s :
  like pattern s = true → like (String "%" pattern) s = true.
Proof.
  intros H. destruct s as [|c s].
  - cbn. by rewrite H.
  - by rewrite like_percent_cons, H.
Qed.

Lemma like_percent_any s : like "%" s = true.
Proof.
  induction s as [|c s IH]; [done |].
  rewrite like_percent_cons, IH. apply orb_true_r.
Qed.

Lemma like_chr_refl c : like_chr c c = true.
Proof. unfold like_chr. apply Ascii.eqb_refl. Qed.

Lemma like_name_then_any name rest :
  like (name +:+ "%") (name +:+ rest) = true.
Proof.
  induction name as [|c name IH]; [apply like_percent_any |].
  change (String c name +:+ "%") with (String c (name +:+ "%")).
  change (String c name +:+ rest) with (String c (name +:+ rest)).
  cbn [like]. destruct (Ascii.eqb c "%") eqn:E.
  - apply Ascii.eqb_eq in E as ->.
    change (like (String "%" (name +:+ "%")) (String "%" (name +:+ rest)) = true).
    rewrite like_percent_cons, (like_percent_here _ _ IH). apply orb_true_r.
  - destruct (Ascii.eqb c "_") eqn:E'.
    + apply Ascii.eqb_eq in E' as ->. exact IH.
    + by rewrite like_chr_refl.
Qed.

Lemma prefix_split name s :
  String.prefix name s = true → ∃ rest, s = name +:+ rest.
Proof.
  revert s. induction name as [|c name IH]; intros s H; [by exists s |].
  destruct s as [|a s]; [discriminate H |]. cbn in H.
  destruct (ascii_dec c a) as [->|]; [| discriminate H].
  destruct (IH s H) as [rest ->]. by exists rest.
Qed.

(** The half of pure containment that the query does give: a path that
    contains the file name is matched by the pattern. *)
Lemma includes_like name path :
  includes name path = true → like ("%" +:+ name +:+ "%") path = true.
Proof.
  change ("%" +:+ name +:+ "%") with (String "%" (name +:+ "%")).
  induction path as [|c path IH]; cbn [includes]; intros H;
    apply orb_true_iff in H as [H | H].
  - destruct name; [reflexivity | discriminate H].
  - discriminate H.
  - apply prefix_split in H as [rest ->].
    apply like_percent_here, like_name_then_any.
  - rewrite like_percent_cons, (IH H). apply orb_true_r.
Qed.

Lemma first_like_finds e items it path :
  it ∈ items →
  Path it = Some path →
  includes (strFilename e) path = true →
  is_Some (first_like (pattern_of e) items).
Proof.
  intros Hin Hp Hinc. unfold first_like.
  assert (it ∈ filter (λ it, path_like (pattern_of e) it = true) items) as H.
  { apply list_elem_of_filter. split; [| done].
    unfold path_like. rewrite Hp. by apply includes_like. }
  destruct (filter _ items); [by apply elem_of_nil in H | by eexists].
Qed.

(** C3, where the program departs from it.  The file name [My_Show.mkv]
    is matched with [/media/MyXShow.mkv], which does not contain it: the
    underscore of the name is read by [LIKE] as "any character".  The
    query returns that item although it is not one whose path contains the
    name, returns it rather than the later item whose path does, and the run
    writes the watch state under its key. *)
Theorem whereLike_reads_wildcards :
  includes "My_Show.mkv" "/media/MyXShow.mkv" = false
  ∧ includes "My_Show.mkv" "/media/My_Show.mkv" = true
  ∧ first_like (pattern_of Sample.underscore) [Sample.lookalike_item]
    = Some Sample.lookalike_item
  ∧ items_whereLike_first (pattern_of Sample.underscore)
      Sample.morning Sample.world_underscore
    = (tick Sample.world_underscore, inr (Some Sample.lookalike_item))
  ∧ omap key_of (UserDatas (run Sample.morning Sample.world_underscore)) = ["k1"].
Proof. repeat split; vm_compute; reflexivity. Qed.

(** C4, where the program departs from it.  The path of no item contains
    the file name [My_Show.mkv], so that the file matches no item; yet the
    run does not skip it: the unescaped underscore makes the query return the
    item of [/media/MyXShow.mkv], and the iteration inserts a row under the
    key of that item and reports an insertion. *)
Theorem unmatched_record_written :
  TypedBaseItems Cases.world_lookalike = [Sample.lookalike_item]
  ∧ Path Sample.lookalike_item = Some "/media/MyXShow.mkv"
  ∧ includes (strFilename Sample.underscore) "/media/MyXShow.mkv" = false
  ∧ select_watched (files Cases.world_lookalike) = [Sample.underscore]
  ∧ UserDatas Cases.world_lookalike = []
  ∧ omap key_of
      (UserDatas (sync_entry Sample.underscore Sample.morning
                    (at_loop_entry Cases.world_lookalike)).1)
    = ["k1"]
  ∧ omap key_of (UserDatas (run Sample.morning Cases.world_lookalike)) = ["k1"]
  ∧ console (run Sample.morning Cases.world_lookalike)
    = [LogConnecting; LogFound 1; LogInserted "My_Show.mkv"; LogComplete].
Proof. repeat split; vm_compute; reflexivity. Qed.

(** ** The properties on the sample stores *)

(** The scenario of the documentation: one insertion, with the key of the
    item, the play count of the file and its date followed by [.000Z]. *)
Example scenario :
  let w := run Sample.morning Sample.world in
  console w = [LogConnecting; LogFound 1; LogInserted "Show/S01E01.mkv"; LogComplete]
  ∧ map_to_list <$> UserDatas w
    = [map_to_list
         (<["key" := VStr "abc123"]>
            (data_of Sample.episode "2023-01-01 10:00:00.000Z"))]
  ∧ (UserDatas w !! 0%nat) ≫= (.!! "playCount") = Some (VNum 3)
  ∧ (UserDatas w !! 0%nat) ≫= (.!! "played") = Some (VNum 1)
  ∧ (UserDatas w !! 0%nat) ≫= (.!! "lastPlayedDate")
    = Some (VStr "2023-01-01 10:00:00.000Z").
Proof. repeat split; vm_compute; reflexivity. Qed.

(** Two files matching one item: an insertion, then an update of the same
    row. *)
Example two_files_one_item :
  let w := run Sample.morning Sample.world_twice in
  console w = [LogConnecting; LogFound 2; LogInserted "S01E01.mkv";
               LogUpdated "Show/S01E01.mkv"; LogComplete]
  ∧ omap key_of (UserDatas w) = ["abc123"]
  ∧ (UserDatas w !! 0%nat) ≫= (.!! "playCount") = Some (VNum 1).
Proof. repeat split; vm_compute; reflexivity. Qed.

Lemma sync_entry_inserts_witness :
  reliable Sample.morning
  ∧ first_like (pattern_of Sample.episode) (TypedBaseItems (at_loop_entry Sample.world))
    = Some Sample.episode_item
  ∧ first_where_key (UserDataKey Sample.episode_item)
      (UserDatas (at_loop_entry Sample.world)) = None
  ∧ ∃ w' row,
      sync_entry Sample.episode Sample.morning (at_loop_entry Sample.world) = (w', inr tt)
      ∧ UserDatas w' = UserDatas (at_loop_entry Sample.world) ++ [row]
      ∧ row !! "key" = Some (VStr (UserDataKey Sample.episode_item))
      ∧ row !! "userId" = Some (VNum 1)
      ∧ row !! "played" = Some (VNum 1)
      ∧ row !! "isFavorite" = Some (VNum 0)
      ∧ row !! "playbackPositionTicks" = Some (VNum 0)
      ∧ row !! "playCount" = Some (VNum (playCount Sample.episode))
      ∧ dom row = {["key"]} ∪ payload_columns.
Proof.
  assert (reliable Sample.morning) as H1 by (intros n; reflexivity).
  assert (first_like (pattern_of Sample.episode)
            (TypedBaseItems (at_loop_entry Sample.world))
          = Some Sample.episode_item) as H2 by reflexivity.
  assert (first_where_key (UserDataKey Sample.episode_item)
            (UserDatas (at_loop_entry Sample.world)) = None) as H3 by reflexivity.
  repeat (split; [assumption |]).
  exact (sync_entry_inserts Sample.morning (at_loop_entry Sample.world)
           Sample.episode Sample.episode_item H1 H2 H3).
Defined.

Lemma sync_entry_skips_witness :
  rejects Sample.morning (calls (at_loop_entry Sample.world)) = false
  ∧ first_like (pattern_of Sample.stranger) (TypedBaseItems (at_loop_entry Sample.world))
    = None
  ∧ ∃ w',
      sync_entry Sample.stranger Sample.morning (at_loop_entry Sample.world) = (w', inr tt)
      ∧ UserDatas w' = UserDatas (at_loop_entry Sample.world)
      ∧ console w' = console (at_loop_entry Sample.world)
      ∧ calls w' = S (calls (at_loop_entry Sample.world))
      ∧ for_of (Sample.stranger :: [Sample.episode]) sync_entry Sample.morning
          (at_loop_entry Sample.world)
        = for_of [Sample.episode] sync_entry Sample.morning w'.
Proof.
  assert (rejects Sample.morning (calls (at_loop_entry Sample.world)) = false)
    as H1 by reflexivity.
  assert (first_like (pattern_of Sample.stranger)
            (TypedBaseItems (at_loop_entry Sample.world)) = None) as H2 by reflexivity.
  repeat (split; [assumption |]).
  exact (sync_entry_skips Sample.morning (at_loop_entry Sample.world)
           Sample.stranger [Sample.episode] H1 H2).
Defined.

Lemma formatGUID_roundtrip_witness :
  (length Sample.guid1 = 16%nat →
     ∃ s, formatGUID Sample.guid1 = inr s
          ∧ canonical s = true ∧ parseGUID s = Some Sample.guid1)
  ∧ (∃ s, formatGUID Sample.guid1 = inr s
          ∧ canonical s = true ∧ parseGUID s = Some Sample.guid1)
  ∧ formatGUID [x01; x02; x03] = inl InvalidIdentifierLength.
Proof.
  split; [exact (proj1 (formatGUID_roundtrip Sample.guid1)) |]. split.
  - exact (proj1 (formatGUID_roundtrip Sample.guid1) eq_refl).
  - apply (proj2 (formatGUID_roundtrip [x01; x02; x03])). discriminate.
Defined.

Lemma lastPlayedDate_written_witness :
  reliable Sample.morning
  ∧ first_like (pattern_of Sample.undated)
      (TypedBaseItems (at_loop_entry Sample.world_undated))
    = Some Sample.episode_item
  ∧ lastPlayed Sample.undated = None
  ∧ calendar_date (clock Sample.morning (dates (at_loop_entry Sample.world_undated)))
  ∧ (∃ w' written,
       sync_entry Sample.undated Sample.morning (at_loop_entry Sample.world_undated)
       = (w', inr tt)
       ∧ is_Some (first_where_key (UserDataKey Sample.episode_item) (UserDatas w'))
       ∧ (∀ row, row ∈ UserDatas w' →
                 key_is (UserDataKey Sample.episode_item) row = true →
                 row !! "lastPlayedDate" = Some (VStr written))
       ∧ written = "2024-01-05 09:03:07.000Z"
       ∧ dates w' = 1%nat
       ∧ occurrences ".000Z" written = 1%nat
       ∧ String.length written = 24%nat)
  ∧ first_like (pattern_of Sample.episode) (TypedBaseItems (at_loop_entry Sample.world))
    = Some Sample.episode_item
  ∧ lastPlayed Sample.episode = Some "2023-01-01 10:00:00"
  ∧ (∃ w' written,
       sync_entry Sample.episode Sample.morning (at_loop_entry Sample.world)
       = (w', inr tt)
       ∧ (∀ row, row ∈ UserDatas w' →
                 key_is (UserDataKey Sample.episode_item) row = true →
                 row !! "lastPlayedDate" = Some (VStr written))
       ∧ written = "2023-01-01 10:00:00.000Z"
       ∧ dates w' = 0%nat).
Proof.
  assert (reliable Sample.morning) as H1 by (intros n; reflexivity).
  assert (first_like (pattern_of Sample.undated)
            (TypedBaseItems (at_loop_entry Sample.world_undated))
          = Some Sample.episode_item) as H2 by reflexivity.
  assert (lastPlayed Sample.undated = None) as H3 by reflexivity.
  assert (calendar_date
            (clock Sample.morning (dates (at_loop_entry Sample.world_undated))))
    as H4 by (cbv; intuition discriminate).
  assert (first_like (pattern_of Sample.episode)
            (TypedBaseItems (at_loop_entry Sample.world))
          = Some Sample.episode_item) as H5 by reflexivity.
  assert (lastPlayed Sample.episode = Some "2023-01-01 10:00:00") as H6
    by reflexivity.
  repeat (split; [assumption |]). split; [| repeat (split; [assumption |])].
  - destruct (lastPlayedDate_written Sample.morning
                (at_loop_entry Sample.world_undated)
                Sample.undated Sample.episode_item H1 H2)
      as (w' & written & Hrun & Hex & Hrows & Hnull & _).
    destruct (Hnull H3) as (_ & Hdates & Hocc & Hcal).
    destruct (Hcal H4) as (Hwritten & Hlen).
    exists w', written.
    split; [exact Hrun |]. split; [exact Hex |]. split; [exact Hrows |].
    split; [exact Hwritten |]. split; [exact Hdates |].
    split; [exact Hocc | exact Hlen].
  - destruct (lastPlayedDate_written Sample.morning (at_loop_entry Sample.world)
                Sample.episode Sample.episode_item H1 H5)
      as (w' & written & Hrun & _ & Hrows & _ & Hdated).
    destruct (Hdated _ H6) as (Hwritten & Hdates); [discriminate |].
    exists w', written.
    split; [exact Hrun |]. split; [exact Hrows |].
    split; [exact Hwritten | exact Hdates].
Defined.

Lemma sync_entry_updates_witness :
  reliable Sample.morning
  ∧ first_like (pattern_of Sample.episode)
      (TypedBaseItems (at_loop_entry Sample.world_seen))
    = Some Sample.episode_item
  ∧ first_where_key (UserDataKey Sample.episode_item)
      (UserDatas (at_loop_entry Sample.world_seen))
    = Some Sample.old_row
  ∧ ∃ w',
      sync_entry Sample.episode Sample.morning (at_loop_entry Sample.world_seen)
      = (w', inr tt)
      ∧ length (UserDatas w') = length (UserDatas (at_loop_entry Sample.world_seen))
      ∧ ∀ i row, UserDatas (at_loop_entry Sample.world_seen) !! i = Some row →
          ∃ row', UserDatas w' !! i = Some row'
            ∧ if key_is (UserDataKey Sample.episode_item) row
              then (∀ c, c ∈ payload_columns →
                         is_Some (row' !! c)
                         ∧ row' !! c
                           = data_of Sample.episode
                               (stamp Sample.morning
                                  (dates (at_loop_entry Sample.world_seen))
                                  Sample.episode) !! c)
                   ∧ (∀ c, c ∉ payload_columns → row' !! c = row !! c)
                   ∧ row' !! "key" = row !! "key"
              else row' = row.
Proof.
  assert (reliable Sample.morning) as H1 by (intros n; reflexivity).
  assert (first_like (pattern_of Sample.episode)
            (TypedBaseItems (at_loop_entry Sample.world_seen))
          = Some Sample.episode_item) as H2 by reflexivity.
  assert (first_where_key (UserDataKey Sample.episode_item)
            (UserDatas (at_loop_entry Sample.world_seen))
          = Some Sample.old_row) as H3 by reflexivity.
  repeat (split; [assumption |]).
  exact (sync_entry_updates Sample.morning (at_loop_entry Sample.world_seen)
           Sample.episode Sample.episode_item Sample.old_row H1 H2 H3).
Defined.

(** The column [rating] of the old row, which the program never writes, is
    still there after the update, next to the new play count. *)
Example update_keeps_rating :
  let w := run Sample.morning Sample.world_seen in
  console w = [LogConnecting; LogFound 1; LogUpdated "Show/S01E01.mkv"; LogComplete]
  ∧ (UserDatas w !! 0%nat) ≫= (.!! "rating") = Some (VNum 8)
  ∧ (UserDatas w !! 0%nat) ≫= (.!! "key") = Some (VStr "abc123")
  ∧ (UserDatas w !! 0%nat) ≫= (.!! "playCount") = Some (VNum 3)
  ∧ length (UserDatas w) = 1%nat.
Proof. repeat split; vm_compute; reflexivity. Qed.

Lemma run_unique_keys_witness :
  unique_keys (UserDatas Sample.world_seen)
  ∧ unique_keys (UserDatas (run Sample.fifth_rejects Sample.world_seen)).
Proof.
  assert (unique_keys (UserDatas Sample.world_seen)) as H.
  { unfold unique_keys. vm_compute. apply NoDup_singleton. }
  split; [assumption |].
  exact (run_unique_keys Sample.fifth_rejects Sample.world_seen H).
Defined.

Lemma main_abort_release_witness :
  rejects Sample.fifth_rejects (calls Sample.world_pair) = false
  ∧ select_watched (files Sample.world_pair)
    = [Sample.episode] ++ Sample.second :: [Sample.third]
  ∧ for_of [Sample.episode] sync_entry Sample.fifth_rejects
      (at_loop_entry Sample.world_pair)
    = (Sample.world_pair_1, inr tt)
  ∧ sync_entry Sample.second Sample.fifth_rejects Sample.world_pair_1
    = (Sample.world_pair_2, inl (StoreError 4))
  ∧ (UserDatas (run Sample.fifth_rejects Sample.world_pair)
     = UserDatas Sample.world_pair_1
     ∧ console (run Sample.fifth_rejects Sample.world_pair)
       = console Sample.world_pair_1 ++ [LogError (StoreError 4)]
     ∧ calls (run Sample.fifth_rejects Sample.world_pair) = calls Sample.world_pair_2
     ∧ StoreError 4 = StoreError (calls Sample.world_pair_2 - 1))
  ∧ (calls (run Sample.fifth_rejects Sample.world_pair) ≤ 5)%nat.
Proof.
  assert (rejects Sample.fifth_rejects (calls Sample.world_pair) = false)
    as H1 by reflexivity.
  assert (select_watched (files Sample.world_pair)
          = [Sample.episode] ++ Sample.second :: [Sample.third]) as H2 by reflexivity.
  assert (for_of [Sample.episode] sync_entry Sample.fifth_rejects
            (at_loop_entry Sample.world_pair)
          = (Sample.world_pair_1, inr tt)) as H3 by (vm_compute; reflexivity).
  assert (sync_entry Sample.second Sample.fifth_rejects Sample.world_pair_1
          = (Sample.world_pair_2, inl (StoreError 4))) as H4 by (vm_compute; reflexivity).
  repeat (split; [assumption |]).
  pose proof (main_abort_release Sample.fifth_rejects Sample.world_pair)
    as (_ & Hcalls & Habort).
  split.
  - exact (Habort [Sample.episode] Sample.second [Sample.third]
             Sample.world_pair_1 Sample.world_pair_2 (StoreError 4) H1 H2 H3 H4).
  - apply (Hcalls 4%nat); [reflexivity | apply Nat.le_0_l].
Defined.

(** After the rejection of the fifth call: the first entry is in the
    table, nothing of the second or third, the error is reported and both
    connections are destroyed. *)
Example fifth_call_rejects :
  let w := run Sample.fifth_rejects Sample.world_pair in
  console w = [LogConnecting; LogFound 3; LogInserted "Show/S01E01.mkv";
               LogError (StoreError 4)]
  ∧ omap key_of (UserDatas w) = ["abc123"]
  ∧ calls w = 5%nat
  ∧ kodiDb_destroyed w = true
  ∧ jellyfinDb_destroyed w = true.
Proof. repeat split; vm_compute; reflexivity. Qed.

Lemma lastPlayedDate_empty_witness :
  reliable Sample.morning
  ∧ first_like (pattern_of Sample.blank)
      (TypedBaseItems (at_loop_entry Sample.world_undated))
    = Some Sample.episode_item
  ∧ lastPlayed Sample.blank = Some ""
  ∧ ∃ w' written,
      sync_entry Sample.blank Sample.morning (at_loop_entry Sample.world_undated)
      = (w', inr tt)
      ∧ is_Some (first_where_key (UserDataKey Sample.episode_item) (UserDatas w'))
      ∧ (∀ row, row ∈ UserDatas w' →
                key_is (UserDataKey Sample.episode_item) row = true →
                row !! "lastPlayedDate" = Some (VStr written))
      ∧ written
        = formatISO9075
            (clock Sample.morning (dates (at_loop_entry Sample.world_undated)))
          +:+ ".000Z"
      ∧ written
        = stamp Sample.morning (dates (at_loop_entry Sample.world_undated))
            (mkKodiEntry (strFilename Sample.blank) None (playCount Sample.blank))
      ∧ written ≠ "" +:+ ".000Z".
Proof.
  assert (reliable Sample.morning) as H1 by (intros n; reflexivity).
  assert (first_like (pattern_of Sample.blank)
            (TypedBaseItems (at_loop_entry Sample.world_undated))
          = Some Sample.episode_item) as H2 by reflexivity.
  assert (lastPlayed Sample.blank = Some "") as H3 by reflexivity.
  repeat (split; [assumption |]).
  exact (lastPlayedDate_empty Sample.morning (at_loop_entry Sample.world_undated)
           Sample.blank Sample.episode_item H1 H2 H3).
Defined.

(** * Further properties of the run *)

(** ** One iteration, whatever the store calls do *)

(** Among the calls from rank [a] up to, not including, rank [b], none
    rejects. *)
Local Abbreviation went_through env a b :=
  (∀ n : nat, (a ≤ n)%nat → (n < b)%nat → rejects env n = false).

(** Settle which of a few consecutive calls a rank is. *)
Ltac which_call :=
  let n := fresh "n" in
  let Hlo := fresh in
  let Hhi := fresh in
  intros n Hlo Hhi;
  repeat match goal with
    | H : rejects ?env ?m = false |- rejects ?env n = false =>
        destruct (decide (n = m)) as [->|?]; [exact H | clear H]
    end;
  exfalso; lia.

Lemma sync_entry_effect env w e :
  ∃ w' r,
    sync_entry e env w = (w', r)
    ∧ files w' = files w
    ∧ TypedBaseItems w' = TypedBaseItems w
    ∧ dates w' = (if undated_match (TypedBaseItems w) e
                       && bool_decide (calls w + 3 ≤ calls w')%nat
                  then S (dates w) else dates w)
    ∧ (calls w < calls w')%nat
    ∧ match r with
      | inl err =>
          UserDatas w' = UserDatas w
          ∧ console w' = console w
          ∧ err = StoreError (calls w' - 1)
          ∧ rejects env (calls w' - 1) = true
          ∧ went_through env (calls w) (calls w' - 1)
      | inr _ =>
          went_through env (calls w) (calls w')
          ∧ match first_like (pattern_of e) (TypedBaseItems w) with
            | None =>
                UserDatas w' = UserDatas w
                ∧ console w' = console w
                ∧ calls w' = S (calls w)
            | Some it =>
                UserDatas w'
                = upsert (UserDataKey it) (data_of e (stamp env (dates w) e)) (UserDatas w)
                ∧ console w' = console w ++ [outcome_line (UserDatas w) it e]
                ∧ calls w' = (3 + calls w)%nat
            end
      end.
Proof.
  unfold undated_match, matched, outcome_line, upsert, stamp, pattern_of.
  unfold_M. explore.
  all: do 2 eexists; split; [reflexivity |]; fields.
  all: repeat match goal with
         | H : first_like _ _ = _ |- _ => rewrite H
         | H : first_where_key _ _ = _ |- _ => rewrite H
         | H : Js.truthy _ = _ |- _ => rewrite H
         end.
  all: cbn [andb negb].
  all: repeat match goal with
         | |- context [bool_decide ?P] =>
             first [ rewrite (bool_decide_eq_true_2 P) by lia
                   | rewrite (bool_decide_eq_false_2 P) by lia ]
         end.
  all: cbn [andb Nat.sub].
  all: rewrite ?Nat.sub_0_r.
  all: repeat split; try reflexivity; try assumption; try lia; try which_call.
Qed.

(** ** What holds from the start of a run to its end

    A relation between worlds that holds across every iteration of the loop
    and across the bookkeeping of [main] holds across the run. *)

Section Across.
Variable R : World → World → Prop.
Hypothesis R_refl : ∀ w, R w w.
Hypothesis R_trans : ∀ w1 w2 w3, R w1 w2 → R w2 w3 → R w1 w3.
Hypothesis R_entry : ∀ env w e, R w (sync_entry e env w).1.
Hypothesis R_tick : ∀ w, R w (tick w).
Hypothesis R_print :
  ∀ line w, outcomes [line] = 0%nat → R w (print line w).
Hypothesis R_release : ∀ w, R w (release_jellyfinDb (release_kodiDb w)).

Lemma for_of_across env watched w :
  R w (for_of watched sync_entry env w).1.
Proof.
  revert w. induction watched as [|e watched IH]; intros w; [apply R_refl |].
  rewrite for_of_cons. pose proof (R_entry env w e) as Hstep.
  destruct (sync_entry e env w) as [w1 [err|[]]]; [exact Hstep |].
  eapply R_trans; [exact Hstep | apply IH].
Qed.

Lemma run_across env w : R w (run env w).
Proof.
  unfold run. rewrite main_unfold. destruct (rejects env (calls w)).
  - cbn [fst]. eapply R_trans; [| apply R_release].
    eapply R_trans; [| by apply R_print].
    eapply R_trans; [| apply R_tick]. by apply R_print.
  - pose proof (for_of_across env (select_watched (files w)) (at_loop_entry w))
      as Hloop.
    assert (R w (at_loop_entry w)) as Hentry.
    { unfold at_loop_entry. eapply R_trans; [| by apply R_print].
      eapply R_trans; [| apply R_tick]. by apply R_print. }
    destruct (for_of _ sync_entry env _) as [w' [err|[]]]; cbn [fst] in *;
      (eapply R_trans; [| apply R_release]);
      (eapply R_trans; [| by apply R_print]);
      eapply R_trans; [exact Hentry | exact Hloop | exact Hentry | exact Hloop].
Qed.
End Across.

(** X1.  A run only reads the Kodi table [files] and the Jellyfin table
    [TypedBaseItems]: whatever the store calls do, both are at the end what
    they were at the start. *)
Theorem run_reads_only env w :
  files (run env w) = files w
  ∧ TypedBaseItems (run env w) = TypedBaseItems w.
Proof.
  apply (run_across (λ w w', files w' = files w
                             ∧ TypedBaseItems w' = TypedBaseItems w)).
  - done.
  - intros w1 w2 w3 [H1 H2] [H3 H4]. split; congruence.
  - intros env' w' e.
    destruct (sync_entry_effect env' w' e) as (w1 & r & -> & Hf & Hi & _). done.
  - done.
  - done.
  - done.
Qed.

(** ** The rows that were there *)

Lemma first_like_elem pattern items it :
  first_like pattern items = Some it → it ∈ items ∧ path_like pattern it = true.
Proof.
  unfold first_like. intros H. apply head_Some_elem_of in H.
  apply list_elem_of_filter in H. tauto.
Qed.

Lemma upsert_frame k (data : Row) rows i row :
  dom data = payload_columns →
  rows !! i = Some row →
  ∃ row', upsert k data rows !! i = Some row'
          ∧ row' !! "key" = row !! "key"
          ∧ (∀ c, c ∉ payload_columns → row' !! c = row !! c)
          ∧ (key_is k row = false → row' = row).
Proof.
  intros Hdom Hi. unfold upsert.
  destruct (first_where_key k rows).
  - unfold update_rows. rewrite list_lookup_fmap, Hi. cbn.
    eexists. split; [reflexivity |]. unfold set_where_key.
    destruct (key_is k row); [| done].
    split; [| split; [| done]].
    + apply lookup_union_r. apply not_elem_of_dom. rewrite Hdom.
      apply key_not_payload.
    + intros c Hc. apply lookup_union_r. apply not_elem_of_dom. by rewrite Hdom.
  - exists row. split; [| done]. apply lookup_app_l_Some. done.
Qed.

(** Row by row: the row is still at its place, with its key and with
    every column that is not of the payload; it is the same row when its key
    is the [UserDataKey] of no item. *)
Lemma run_frame env w i row :
  UserDatas w !! i = Some row →
  ∃ row', UserDatas (run env w) !! i = Some row'
          ∧ row' !! "key" = row !! "key"
          ∧ (∀ c, c ∉ payload_columns → row' !! c = row !! c)
          ∧ ((∀ it, it ∈ TypedBaseItems w → key_is (UserDataKey it) row = false) →
             row' = row).
Proof.
  revert i row.
  apply (run_across
           (λ w w', TypedBaseItems w' = TypedBaseItems w
                    ∧ ∀ i row, UserDatas w !! i = Some row →
                        ∃ row', UserDatas w' !! i = Some row'
                          ∧ row' !! "key" = row !! "key"
                          ∧ (∀ c, c ∉ payload_columns → row' !! c = row !! c)
                          ∧ ((∀ it, it ∈ TypedBaseItems w →
                                    key_is (UserDataKey it) row = false) →
                             row' = row))).
  - intros w0. split; [done |]. intros i row Hi. by exists row.
  - intros w1 w2 w3 [Hi12 H12] [Hi23 H23]. split; [congruence |].
    intros i row Hi.
    destruct (H12 i row Hi) as (row2 & Hi2 & Hk2 & Hc2 & Hs2).
    destruct (H23 i row2 Hi2) as (row3 & Hi3 & Hk3 & Hc3 & Hs3).
    exists row3. split; [done |]. split; [congruence |]. split.
    + intros c Hc. rewrite Hc3, Hc2 by done. done.
    + intros Hforeign. rewrite Hs3; [by apply Hs2 |].
      rewrite Hi12. intros it Hit. unfold key_is. rewrite Hk2.
      by apply Hforeign.
  - intros env' w' e.
    destruct (sync_entry_effect env' w' e)
      as (w1 & r & -> & _ & Hitems & _ & _ & Hr).
    cbn [fst]. split; [done |]. intros i row Hi.
    assert (UserDatas w1 = UserDatas w'
            ∨ ∃ it, first_like (pattern_of e) (TypedBaseItems w') = Some it
                    ∧ UserDatas w1
                      = upsert (UserDataKey it)
                          (data_of e (stamp env' (dates w') e)) (UserDatas w'))
      as [-> | (it & Hm & ->)].
    { destruct r as [err|[]]; [left; tauto |].
      destruct Hr as [_ Hr].
      destruct (first_like (pattern_of e) (TypedBaseItems w')) as [it|];
        [right; exists it; tauto | left; tauto]. }
    + by exists row.
    + destruct (upsert_frame (UserDataKey it) _ _ i row
                  (data_of_dom e (stamp env' (dates w') e)) Hi)
        as (row' & Hi' & Hk & Hc & Hs).
      exists row'. repeat (split; [done |]).
      intros Hforeign. apply Hs, Hforeign.
      by apply first_like_elem in Hm as [? _].
  - intros w0. split; [done |]. intros i row Hi. by exists row.
  - intros line w0 _. split; [done |]. intros i row Hi. by exists row.
  - intros w0. split; [done |]. intros i row Hi. by exists row.
Qed.

(** X2.  Whatever the store calls do, a run removes no row of [UserDatas] and
    moves none: every row is at the end where it was, with the same key and
    the same value in every column outside the six of the payload. *)
Theorem run_keeps_rows env w i row :
  UserDatas w !! i = Some row →
  ∃ row', UserDatas (run env w) !! i = Some row'
          ∧ row' !! "key" = row !! "key"
          ∧ ∀ c, c ∉ payload_columns → row' !! c = row !! c.
Proof.
  intros Hi. destruct (run_frame env w i row Hi) as (row' & ? & ? & ? & _).
  by exists row'.
Qed.

(** X3.  Whatever the store calls do, a row of [UserDatas] whose key is the
    [UserDataKey] of no row of [TypedBaseItems] is not written to: the watch
    state of what Jellyfin does not list is left alone. *)
Theorem run_spares_foreign_rows env w i row :
  UserDatas w !! i = Some row →
  (∀ it, it ∈ TypedBaseItems w → key_is (UserDataKey it) row = false) →
  UserDatas (run env w) !! i = Some row.
Proof.
  intros Hi Hforeign.
  destruct (run_frame env w i row Hi) as (row' & Hi' & _ & _ & Hsame).
  by rewrite Hi', (Hsame Hforeign).
Qed.

(** ** The console and the table *)

Lemma inserted_app lines lines' :
  inserted (lines ++ lines') = (inserted lines + inserted lines')%nat.
Proof.
  induction lines as [|line lines IH]; [done |].
  destruct line; cbn; by rewrite ?IH.
Qed.

Lemma outcomes_app lines lines' :
  outcomes (lines ++ lines') = (outcomes lines + outcomes lines')%nat.
Proof.
  induction lines as [|line lines IH]; [done |].
  destruct line; cbn; by rewrite ?IH.
Qed.

Lemma upsert_length k (data : Row) rows :
  length (upsert k data rows)
  = (length rows + match first_where_key k rows with Some _ => 0 | None => 1 end)%nat.
Proof.
  unfold upsert. destruct (first_where_key k rows).
  - unfold update_rows. rewrite length_fmap. lia.
  - by rewrite length_app.
Qed.

(** X4.  The console tells the truth about insertions: whatever the store
    calls do, a run adds to [UserDatas] exactly as many rows as it prints
    lines "Watch inserted". *)
Theorem run_reports_insertions env w :
  (length (UserDatas (run env w)) + inserted (console w)
   = length (UserDatas w) + inserted (console (run env w)))%nat.
Proof.
  apply (run_across
           (λ w w', (length (UserDatas w') + inserted (console w)
                     = length (UserDatas w) + inserted (console w'))%nat)).
  - done.
  - intros w1 w2 w3 H12 H23. lia.
  - intros env' w' e.
    destruct (sync_entry_effect env' w' e) as (w1 & r & -> & _ & _ & _ & _ & Hr).
    cbn [fst]. destruct r as [err|[]].
    + destruct Hr as (-> & -> & _). done.
    + destruct Hr as [_ Hr].
      destruct (first_like (pattern_of e) (TypedBaseItems w')) as [it|].
      * destruct Hr as (-> & -> & _).
        rewrite upsert_length, inserted_app. unfold outcome_line.
        destruct (first_where_key (UserDataKey it) (UserDatas w')); cbn; lia.
      * destruct Hr as (-> & -> & _). done.
  - done.
  - intros line w0 Hline. fields. rewrite inserted_app.
    destruct line; cbn in *; lia.
  - done.
Qed.

(** ** How a run ends, and what it costs *)

Lemma went_through_trans env a b c :
  (a ≤ b)%nat →
  went_through env a b → went_through env b c → went_through env a c.
Proof.
  intros Hab H1 H2 n Hlo Hhi.
  destruct (decide (n < b)%nat); [by apply H1 | apply H2; lia].
Qed.

Lemma for_of_effect env watched w :
  ∃ w' r,
    for_of watched sync_entry env w = (w', r)
    ∧ match r with
      | inl err =>
          (calls w < calls w')%nat
          ∧ err = StoreError (calls w' - 1)
          ∧ rejects env (calls w' - 1) = true
          ∧ went_through env (calls w) (calls w' - 1)
      | inr _ =>
          went_through env (calls w) (calls w')
          ∧ calls w' = (calls w + length watched
                        + 2 * length (matches (TypedBaseItems w) watched))%nat
          ∧ dates w' = (dates w
                        + length (undated_matches (TypedBaseItems w) watched))%nat
          ∧ ∃ lines, console w' = console w ++ lines
                     ∧ length lines = length (matches (TypedBaseItems w) watched)
                     ∧ outcomes lines = length lines
      end.
Proof.
  revert w. induction watched as [|e watched IH]; intros w.
  - exists w, (inr tt). split; [done |]. split; [intros n ? ?; lia |].
    cbn. split; [lia |]. split; [lia |]. exists []. by rewrite app_nil_r.
  - rewrite for_of_cons.
    destruct (sync_entry_effect env w e)
      as (w1 & r1 & -> & _ & Hitems & Hdates & Hlt & Hr1).
    destruct r1 as [err|[]].
    { exists w1, (inl err). split; [done |]. tauto. }
    destruct Hr1 as [Hthrough Hr1].
    destruct (IH w1) as (w' & r & -> & Hr). rewrite Hitems in Hr.
    exists w', r. split; [done |].
    assert (matched (TypedBaseItems w) e
            = match first_like (pattern_of e) (TypedBaseItems w) with
              | Some _ => true
              | None => false
              end) as Hmatched by reflexivity.
    assert (undated_match (TypedBaseItems w) e
            = matched (TypedBaseItems w) e && negb (Js.truthy (lastPlayed e)))
      as Hundated by reflexivity.
    unfold matches, undated_matches in *.
    destruct (first_like (pattern_of e) (TypedBaseItems w)) as [it|] eqn:Hm.
    + destruct Hr1 as (_ & Hconsole & Hcalls).
      rewrite Hmatched in Hundated. cbn [andb] in Hundated.
      rewrite Hundated, Hcalls in Hdates.
      rewrite (bool_decide_eq_true_2 (calls w + 3 ≤ 3 + calls w)%nat) in Hdates by lia.
      rewrite andb_true_r in Hdates.
      rewrite (filter_cons_True (λ e0, matched (TypedBaseItems w) e0 = true))
        by done.
      assert (length (filter (λ e0, undated_match (TypedBaseItems w) e0 = true)
                        (e :: watched))
              = ((if Js.truthy (lastPlayed e) then 0 else 1)
                 + length (filter (λ e0, undated_match (TypedBaseItems w) e0 = true)
                             watched))%nat) as Hcount.
      { destruct (Js.truthy (lastPlayed e)); cbn [negb] in Hundated.
        - by rewrite filter_cons_False by (rewrite Hundated; done).
        - by rewrite filter_cons_True by done. }
      rewrite Hcount. cbn [length].
      destruct r as [err|[]].
      * destruct Hr as (Hlt' & -> & Hrej & Hthrough').
        split; [lia |]. split; [done |]. split; [done |].
        apply (went_through_trans env _ (calls w1)); [lia | done | done].
      * destruct Hr as (Hthrough' & Hcalls' & Hdates' & lines & Hlines & Hlen & Hout).
        split; [apply (went_through_trans env _ (calls w1)); [lia | done | done] |].
        split; [lia |]. split.
        { destruct (Js.truthy (lastPlayed e)); cbn [negb] in Hdates; lia. }
        exists (outcome_line (UserDatas w) it e :: lines).
        rewrite Hlines, Hconsole, <-app_assoc. split; [done |].
        cbn [length]. split; [lia |].
        unfold outcome_line.
        destruct (first_where_key (UserDataKey it) (UserDatas w)); cbn; lia.
    + destruct Hr1 as (_ & Hconsole & Hcalls).
      rewrite Hmatched in Hundated. cbn [andb] in Hundated.
      rewrite Hundated in Hdates. cbn [andb] in Hdates.
      rewrite (filter_cons_False (λ e0, matched (TypedBaseItems w) e0 = true))
        by (rewrite Hmatched; done).
      rewrite (filter_cons_False (λ e0, undated_match (TypedBaseItems w) e0 = true))
        by (rewrite Hundated; done).
      cbn [length].
      destruct r as [err|[]].
      * destruct Hr as (Hlt' & -> & Hrej & Hthrough').
        split; [lia |]. split; [done |]. split; [done |].
        apply (went_through_trans env _ (calls w1)); [lia | done | done].
      * destruct Hr as (Hthrough' & Hcalls' & Hdates' & lines & Hlines & Hlen & Hout).
        split; [apply (went_through_trans env _ (calls w1)); [lia | done | done] |].
        split; [lia |]. split; [lia |].
        exists lines. by rewrite Hlines, Hconsole.
Qed.

(** X5.  A run ends in one of two ways.  Either every store call it issued
    went through, and the last line of the console is "Sync complete"; or
    one call rejected, all the calls before it having gone through: that
    call is the last the run issued and the last line of the console is its
    error. *)
Theorem run_ends env w :
  (went_through env (calls w) (calls (run env w))
   ∧ last (console (run env w)) = Some LogComplete)
  ∨ (∃ n, (calls w ≤ n)%nat
          ∧ rejects env n = true
          ∧ went_through env (calls w) n
          ∧ calls (run env w) = S n
          ∧ last (console (run env w)) = Some (LogError (StoreError n))).
Proof.
  unfold run. rewrite main_unfold. destruct (rejects env (calls w)) eqn:Hc.
  - right. exists (calls w). cbn [fst]. fields.
    split; [lia |]. split; [done |]. split; [intros n ? ?; lia |].
    split; [done |]. apply last_snoc.
  - destruct (for_of_effect env (select_watched (files w)) (at_loop_entry w))
      as (w' & r & -> & Hr).
    unfold at_loop_entry in Hr. revert Hr. fields. intros Hr.
    assert (went_through env (calls w) (S (calls w))) as Hfirst.
    { intros n ? ?. by replace n with (calls w) by lia. }
    destruct r as [err|[]]; cbn [fst]; fields.
    + right. destruct Hr as (Hlt & -> & Hrej & Hthrough).
      exists (calls w' - 1)%nat. split; [lia |]. split; [done |]. split.
      { apply (went_through_trans env _ (S (calls w))); [lia | done | done]. }
      split; [lia | apply last_snoc].
    + left. destruct Hr as (Hthrough & _). split; [| apply last_snoc].
      apply (went_through_trans env _ (S (calls w))); [lia | done | done].
Qed.

(** X6.  What a run without rejection costs and prints: one query for the
    watched files, one query per watched file, and two more store calls (the
    existence query and the write) per file that has a match; one reading
    of the clock per matched file without a last-played value; on the
    console the two opening lines, one outcome line per matched file, and
    "Sync complete". *)
Theorem run_cost env w :
  reliable env →
  let watched := select_watched (files w) in
  let hits := matches (TypedBaseItems w) watched in
  calls (run env w) = (calls w + 1 + length watched + 2 * length hits)%nat
  ∧ dates (run env w)
    = (dates w + length (undated_matches (TypedBaseItems w) watched))%nat
  ∧ ∃ lines,
      console (run env w)
      = console w ++ [LogConnecting; LogFound (length watched)] ++ lines ++ [LogComplete]
      ∧ length lines = length hits
      ∧ outcomes lines = length hits.
Proof.
  intros Hr. cbv zeta. unfold run. rewrite main_unfold, (Hr (calls w)).
  destruct (for_of_effect env (select_watched (files w)) (at_loop_entry w))
    as (w' & r & -> & Hloop).
  destruct r as [err|[]].
  { destruct Hloop as (_ & _ & Hrej & _). by rewrite Hr in Hrej. }
  destruct Hloop as (_ & Hcalls & Hdates & lines & Hconsole & Hlen & Hout).
  unfold at_loop_entry in *. revert Hcalls Hdates Hconsole Hlen Hout. fields.
  intros Hcalls Hdates Hconsole Hlen Hout. cbn [fst]. fields.
  split; [lia |]. split; [done |]. exists lines.
  rewrite Hconsole, <-!app_assoc. split; [done |]. split; [done | lia].
Qed.

(** X7.  When the query for the watched files rejects, Jellyfin is neither
    written nor queried: that call is the only one of the run, [UserDatas]
    is unchanged, the clock is not read, and the console shows the opening
    line and the error. *)
Theorem run_source_unavailable env w :
  rejects env (calls w) = true →
  UserDatas (run env w) = UserDatas w
  ∧ calls (run env w) = S (calls w)
  ∧ dates (run env w) = dates w
  ∧ console (run env w)
    = console w ++ [LogConnecting; LogError (StoreError (calls w))]
  ∧ kodiDb_destroyed (run env w) = true
  ∧ jellyfinDb_destroyed (run env w) = true.
Proof.
  intros Hc. unfold run. rewrite main_unfold, Hc. cbn [fst]. fields.
  by rewrite <-app_assoc.
Qed.

(** ** What the table holds after a run without rejection *)

Lemma key_is_inj k k' (row : Row) :
  key_is k row = true → key_is k' row = true → k = k'.
Proof. rewrite !key_is_true. congruence. Qed.

(** Every row of a written key carries the data of one of the writes for
    that key. *)
Lemma apply_writes_carries ops rows k row :
  Forall (λ op : string * Row, op.2 !! "key" = None) ops →
  k ∈ ops.*1 →
  row ∈ apply_writes ops rows →
  key_is k row = true →
  ∃ data, (k, data) ∈ ops ∧ ∀ c v, data !! c = Some v → row !! c = Some v.
Proof.
  revert k row. induction ops as [|op ops IH] using rev_ind;
    intros k row Hs Hk Hin Hrow; [by apply elem_of_nil in Hk |].
  apply Forall_app in Hs as [Hs Hop]. rewrite Forall_singleton in Hop.
  rewrite apply_writes_snoc in Hin.
  assert ((k, op.2) ∈ ops ++ [op] ↔ (k = op.1 ∨ (k, op.2) ∈ ops)) as Hlast.
  { rewrite elem_of_app, list_elem_of_singleton. destruct op as [k' d']. cbn.
    split; [intros [? | [= ->]]; tauto | intros [-> | ?]; tauto]. }
  assert (∀ r, r ∈ apply_writes ops rows → key_is k r = true →
               key_is op.1 r = false →
               ∃ data, (k, data) ∈ ops ++ [op]
                       ∧ ∀ c v, data !! c = Some v → r !! c = Some v) as Hold.
  { intros r Hr Hkr Hother.
    assert (k ∈ ops.*1) as Hk'.
    { rewrite fmap_app in Hk. apply elem_of_app in Hk as [Hk | Hk]; [done |].
      apply list_elem_of_singleton in Hk as ->. congruence. }
    destruct (IH k r Hs Hk' Hr Hkr) as (data & Hdata & Hcarry).
    exists data. split; [| done]. apply elem_of_app. by left. }
  unfold upsert in Hin.
  destruct (first_where_key op.1 (apply_writes ops rows)) as [r0|] eqn:E.
  - unfold update_rows in Hin. apply list_elem_of_fmap in Hin as (r & -> & Hr).
    rewrite key_is_set_where_key in Hrow by done. unfold set_where_key.
    destruct (key_is op.1 r) eqn:Er; [| by apply Hold].
    exists op.2. split.
    + apply Hlast. left. by apply (key_is_inj _ _ r).
    + intros c v Hc. by apply lookup_union_Some_l.
  - apply first_where_key_None in E.
    apply elem_of_app in Hin as [Hin | Hin].
    + apply Hold; [done | done |].
      eapply Forall_forall in E; [| exact Hin]. done.
    + apply list_elem_of_singleton in Hin as ->.
      apply key_is_true in Hrow. rewrite lookup_insert_eq in Hrow.
      injection Hrow as <-.
      exists op.2. split; [apply Hlast; by left |].
      intros c v Hc. rewrite lookup_insert_ne; [done |]. intros <-. congruence.
Qed.

Lemma writes_of_elem env items d watched k data :
  (k, data) ∈ writes_of env items d watched →
  ∃ e it s, e ∈ watched
            ∧ first_like (pattern_of e) items = Some it
            ∧ k = UserDataKey it
            ∧ data = data_of e s.
Proof.
  revert d. induction watched as [|e watched IH]; intros d Hin;
    [by apply elem_of_nil in Hin |].
  cbn [writes_of] in Hin.
  assert (∀ d', (k, data) ∈ writes_of env items d' watched →
                ∃ e0 it s, e0 ∈ e :: watched
                           ∧ first_like (pattern_of e0) items = Some it
                           ∧ k = UserDataKey it ∧ data = data_of e0 s) as Hrest.
  { intros d' H. destruct (IH d' H) as (e0 & it & s & He0 & Hrest).
    exists e0, it, s. split; [| done]. apply elem_of_cons. by right. }
  destruct (first_like (pattern_of e) items) as [it|] eqn:Hm; [| by eapply Hrest].
  apply elem_of_cons in Hin as [[= -> ->] | Hin]; [| by eapply Hrest].
  exists e, it, (stamp env d e). split; [| done]. apply elem_of_cons. by left.
Qed.

Lemma writes_of_no_key env items d watched :
  Forall (λ op : string * Row, op.2 !! "key" = None) (writes_of env items d watched).
Proof.
  eapply Forall_impl; [apply writes_of_shaped |].
  intros op Hop. cbn in *. by apply (shaped_key payload_columns key_not_payload).
Qed.

Lemma writes_of_app env items d xs ys :
  ∃ d', writes_of env items d (xs ++ ys)
        = writes_of env items d xs ++ writes_of env items d' ys.
Proof.
  revert d. induction xs as [|e xs IH]; intros d; [by exists d |].
  rewrite <-app_comm_cons. cbn [writes_of].
  destruct (first_like (pattern_of e) items); [| apply IH].
  destruct (IH (if Js.truthy (lastPlayed e) then d else S d)) as [d' ->].
  by exists d'.
Qed.

Lemma select_watched_positive table e :
  e ∈ select_watched table → (0 < playCount e)%Z.
Proof.
  unfold select_watched. intros H.
  apply list_elem_of_omap in H as (f & _ & Hf).
  destruct (files_playCount f) as [n|]; [| discriminate Hf].
  destruct (0 <? n)%Z eqn:E; [| discriminate Hf].
  injection Hf as <-. cbn. by apply Z.ltb_lt.
Qed.

(** X8.  After a run without rejection, every watched file that has a match
    has watch state: there is a row for the key of its item, and every row of
    that key is marked played, not favourite, at position 0, for user 1, with
    the play count of one of the watched files matched to that key, a
    positive number. *)
Theorem run_marks_played env w e it :
  reliable env →
  e ∈ select_watched (files w) →
  first_like (pattern_of e) (TypedBaseItems w) = Some it →
  is_Some (first_where_key (UserDataKey it) (UserDatas (run env w)))
  ∧ ∀ row, row ∈ UserDatas (run env w) →
      key_is (UserDataKey it) row = true →
      row !! "played" = Some (VNum 1)
      ∧ row !! "isFavorite" = Some (VNum 0)
      ∧ row !! "playbackPositionTicks" = Some (VNum 0)
      ∧ row !! "userId" = Some (VNum 1)
      ∧ ∃ e' it',
          e' ∈ select_watched (files w)
          ∧ first_like (pattern_of e') (TypedBaseItems w) = Some it'
          ∧ UserDataKey it' = UserDataKey it
          ∧ row !! "playCount" = Some (VNum (playCount e'))
          ∧ (0 < playCount e')%Z.
Proof.
  intros Hr He Hm. destruct (run_reliable env w Hr) as (_ & _ & ->).
  set (ops := writes_of env (TypedBaseItems w) (dates w) (select_watched (files w))).
  destruct (writes_of_keys env (TypedBaseItems w) (dates w) _ e it He Hm)
    as [data0 Hdata0]. fold ops in Hdata0.
  split.
  - pose proof (apply_writes_has_keys _ key_not_payload ops (UserDatas w)
                  (writes_of_shaped _ _ _ _)) as H.
    eapply Forall_forall in H; [| exact Hdata0]. done.
  - intros row Hrow Hk.
    destruct (apply_writes_carries ops (UserDatas w) (UserDataKey it) row)
      as (data & Hdata & Hcarry);
      [apply writes_of_no_key | | done | done |].
    { apply list_elem_of_fmap. by exists (UserDataKey it, data0). }
    apply writes_of_elem in Hdata as (e' & it' & s & He' & Hm' & Hkey & ->).
    repeat (split; [by apply Hcarry |]).
    exists e', it'. repeat (split; [done |]).
    split; [by apply Hcarry | by eapply select_watched_positive].
Qed.

Lemma upsert_other_key (P : Row → Prop) k k' (data : Row) rows :
  k' ≠ k →
  data !! "key" = None →
  (∀ row, row ∈ rows → key_is k row = true → P row) →
  ∀ row, row ∈ upsert k' data rows → key_is k row = true → P row.
Proof.
  intros Hne Hd Hrows row Hin Hk. unfold upsert in Hin.
  destruct (first_where_key k' rows).
  - unfold update_rows in Hin. apply list_elem_of_fmap in Hin as (r & -> & Hr).
    rewrite key_is_set_where_key in Hk by done. unfold set_where_key.
    destruct (key_is k' r) eqn:E; [| by apply Hrows].
    destruct Hne. by apply (key_is_inj _ _ r).
  - apply elem_of_app in Hin as [Hin | Hin]; [by apply Hrows |].
    apply list_elem_of_singleton in Hin as ->.
    apply key_is_true in Hk. rewrite lookup_insert_eq in Hk. congruence.
Qed.

Lemma apply_writes_other_keys (P : Row → Prop) k ops rows :
  Forall (λ op : string * Row, op.1 ≠ k ∧ op.2 !! "key" = None) ops →
  (∀ row, row ∈ rows → key_is k row = true → P row) →
  ∀ row, row ∈ apply_writes ops rows → key_is k row = true → P row.
Proof.
  intros Hops. revert rows.
  induction Hops as [|op ops [Hne Hd] _ IH]; intros rows Hrows; [done |].
  rewrite apply_writes_cons. apply IH. by apply upsert_other_key.
Qed.

(** X9.  The last write wins.  After a run without rejection, when no
    watched file after [e] is matched to an item with the key of the item of
    [e], every row of that key holds the play count of [e] and, when [e] has
    a last-played value, that value followed by [.000Z]. *)
Theorem run_last_write_wins env w before e after it :
  reliable env →
  select_watched (files w) = before ++ e :: after →
  first_like (pattern_of e) (TypedBaseItems w) = Some it →
  (∀ e' it', e' ∈ after →
             first_like (pattern_of e') (TypedBaseItems w) = Some it' →
             UserDataKey it' ≠ UserDataKey it) →
  ∀ row, row ∈ UserDatas (run env w) →
    key_is (UserDataKey it) row = true →
    row !! "playCount" = Some (VNum (playCount e))
    ∧ (Js.truthy (lastPlayed e) = true →
       row !! "lastPlayedDate"
       = Some (VStr (Js.string_of (lastPlayed e) +:+ ".000Z"))).
Proof.
  intros Hr Hsplit Hm Hafter.
  destruct (run_reliable env w Hr) as (_ & _ & ->). rewrite Hsplit.
  destruct (writes_of_app env (TypedBaseItems w) (dates w) before (e :: after))
    as [d ->].
  cbn [writes_of]. rewrite Hm. unfold apply_writes. rewrite foldl_app. cbn [foldl].
  set (rows := foldl _ (UserDatas w) _).
  set (d' := if Js.truthy (lastPlayed e) then d else S d).
  apply (apply_writes_other_keys _ (UserDataKey it)
           (writes_of env (TypedBaseItems w) d' after)).
  - apply Forall_forall. intros [k data] Hin. cbn. split.
    + apply writes_of_elem in Hin as (e' & it' & s & He' & Hm' & -> & _).
      by eapply Hafter.
    + pose proof (writes_of_no_key env (TypedBaseItems w) d' after) as H.
      eapply Forall_forall in H; [| exact Hin]. done.
  - intros row Hin Hk. cbn [fst snd] in Hin. split.
    + eapply upsert_written; [apply data_of_key | exact Hin | exact Hk | reflexivity].
    + intros Ht.
      eapply upsert_written; [apply data_of_key | exact Hin | exact Hk |].
      unfold stamp. rewrite Ht. reflexivity.
Qed.

Lemma unique_keys_at_most_one k rows :
  unique_keys rows → (length (filter (λ row, key_is k row = true) rows) ≤ 1)%nat.
Proof.
  unfold unique_keys. induction rows as [|row rows IH]; [cbn; lia |].
  intros Hu. destruct (key_is k row) eqn:E.
  - rewrite filter_cons_True by done.
    apply key_is_key_of in E. cbn [omap list_omap] in Hu. rewrite E in Hu.
    apply NoDup_cons in Hu as [Hnotin _].
    assert (filter (λ row, key_is k row = true) rows = []) as ->; [| done].
    destruct (filter (λ row, key_is k row = true) rows) as [|r rest] eqn:Ef; [done |].
    assert (r ∈ filter (λ row, key_is k row = true) rows) as Hr.
    { rewrite Ef. apply elem_of_cons. by left. }
    apply list_elem_of_filter in Hr as [Hk Hr]. destruct Hnotin.
    apply list_elem_of_omap. exists r. split; [done | by apply key_is_key_of].
  - rewrite filter_cons_False by congruence. apply IH.
    cbn [omap list_omap] in Hu. destruct (key_of row); [| done].
    by apply NoDup_cons in Hu as [_ ?].
Qed.

Lemma apply_writes_unique_keys ops rows :
  Forall (λ op : string * Row, op.2 !! "key" = None) ops →
  unique_keys rows → unique_keys (apply_writes ops rows).
Proof.
  intros Hops. revert rows.
  induction Hops as [|op ops Hop _ IH]; intros rows Hu; [done |].
  rewrite apply_writes_cons. apply IH. by apply upsert_unique_keys.
Qed.

(** X10.  One row per item.  When each key identifies at most one row of
    [UserDatas] before a run without rejection, then after it every watched
    file that has a match finds exactly one row for the key of its item,
    however many watched files are matched to that item. *)
Theorem run_one_row_per_item env w e it :
  reliable env →
  unique_keys (UserDatas w) →
  e ∈ select_watched (files w) →
  first_like (pattern_of e) (TypedBaseItems w) = Some it →
  length (filter (λ row, key_is (UserDataKey it) row = true) (UserDatas (run env w)))
  = 1%nat.
Proof.
  intros Hr Hu He Hm. destruct (run_reliable env w Hr) as (_ & _ & ->).
  set (ops := writes_of env (TypedBaseItems w) (dates w) (select_watched (files w))).
  assert (is_Some (first_where_key (UserDataKey it) (apply_writes ops (UserDatas w))))
    as [row Hrow].
  { destruct (writes_of_keys env (TypedBaseItems w) (dates w) _ e it He Hm)
      as [data Hdata]. fold ops in Hdata.
    pose proof (apply_writes_has_keys _ key_not_payload ops (UserDatas w)
                  (writes_of_shaped _ _ _ _)) as H.
    eapply Forall_forall in H; [| exact Hdata]. done. }
  pose proof (unique_keys_at_most_one (UserDataKey it) _
                (apply_writes_unique_keys ops (UserDatas w)
                   (writes_of_no_key _ _ _ _) Hu)) as Hle.
  unfold first_where_key in Hrow.
  destruct (filter _ (apply_writes ops (UserDatas w))) as [|r rest];
    [discriminate Hrow |].
  cbn [length] in *. lia.
Qed.

(** * Further properties of the parts *)

(** ** The matcher, where it is containment *)





Lemma first_like_skip pattern before items :
  Forall (λ it, path_like pattern it = false) before →
  first_like pattern (before ++ items) = first_like pattern items.
Proof.
  unfold first_like. induction 1 as [|it before Hit _ IH]; [done |].
  rewrite <-app_comm_cons, filter_cons_False by congruence. done.
Qed.

Lemma first_like_here pattern it items :
  path_like pattern it = true → first_like pattern (it :: items) = Some it.
Proof. intros H. unfold first_like. by rewrite filter_cons_True. Qed.

(** X13.  An item whose path contains the file name is never missed: the
    query returns it, unless it returns an item that comes before it in the
    table. *)
Theorem first_like_finds_first e before it after path :
  Path it = Some path →
  includes (strFilename e) path = true →
  ∃ it', first_like (pattern_of e) (before ++ it :: after) = Some it'
         ∧ it' ∈ before ++ [it].
Proof.
  intros Hpath Hinc.
  assert (path_like (pattern_of e) it = true) as Hit.
  { unfold path_like. rewrite Hpath. by apply includes_like. }
  induction before as [|it0 before IH].
  - exists it. cbn [app]. rewrite (first_like_here _ _ _ Hit).
    split; [done |]. by apply list_elem_of_singleton.
  - rewrite <-!app_comm_cons.
    destruct (path_like (pattern_of e) it0) eqn:E.
    + exists it0. rewrite (first_like_here _ _ _ E). split; [done |].
      apply elem_of_cons. by left.
    + destruct IH as (it' & Hfirst & Hin). exists it'.
      change (it0 :: before ++ it :: after) with ([it0] ++ before ++ it :: after).
      rewrite (first_like_skip _ [it0]) by (by constructor).
      split; [done |]. apply elem_of_cons. by right.
Qed.

(** X14.  An empty file name matches every path: the query returns the
    first item of the table whose path is not [NULL], whatever that path
    is. *)
Theorem first_like_empty_name e before it after path :
  strFilename e = "" →
  Forall (λ it', Path it' = None) before →
  Path it = Some path →
  first_like (pattern_of e) (before ++ it :: after) = Some it.
Proof.
  intros Hname Hbefore Hpath.
  rewrite first_like_skip.
  - apply first_like_here. unfold path_like, pattern_of.
    rewrite Hpath, Hname. change ("%" +:+ "" +:+ "%") with (String "%" "%").
    apply like_percent_here, like_percent_any.
  - eapply Forall_impl; [exact Hbefore |]. intros it' Hit'.
    unfold path_like. by rewrite Hit'.
Qed.

(** ** [formatGUID] *)

Lemma formatGUID_inr guid s :
  formatGUID guid = inr s → length guid = 16%nat.
Proof.
  unfold formatGUID. rewrite toString_hex_length.
  destruct (2 * length guid =? 32)%nat eqn:E; [| discriminate].
  intros _. apply Nat.eqb_eq in E. lia.
Qed.

Lemma formatGUID_read_back guid s :
  formatGUID guid = inr s →
  parseGUID s = Some guid ∧ String.length s = 36%nat.
Proof.
  intros H. destruct (length_16 guid (formatGUID_inr guid s H))
    as (a0&a1&a2&a3&a4&a5&a6&a7&a8&a9&a10&a11&a12&a13&a14&a15&->).
  injection H as <-. split; [| reflexivity].
  cbv -[hex_hi hex_lo unhex_byte fromHex].
  apply (fromHex_toString_hex
           [a0; a1; a2; a3; a4; a5; a6; a7; a8; a9; a10; a11; a12; a13; a14; a15]).
Qed.

(** X15.  [formatGUID] keeps identifiers apart: two buffers that it formats
    to the same string are the same buffer, and a formatted string is 36
    characters long. *)
Theorem formatGUID_injective guid1 guid2 s :
  formatGUID guid1 = inr s →
  formatGUID guid2 = inr s →
  guid1 = guid2 ∧ String.length s = 36%nat.
Proof.
  intros H1 H2.
  destruct (formatGUID_read_back guid1 s H1) as [Hp1 Hlen].
  destruct (formatGUID_read_back guid2 s H2) as [Hp2 _].
  split; [congruence | done].
Qed.

(** * The further properties on the sample stores *)

Lemma run_keeps_rows_witness :
  UserDatas Sample.world_seen !! 0%nat = Some Sample.old_row
  ∧ ∃ row', UserDatas (run Sample.fifth_rejects Sample.world_seen) !! 0%nat = Some row'
            ∧ row' !! "key" = Sample.old_row !! "key"
            ∧ ∀ c, c ∉ payload_columns → row' !! c = Sample.old_row !! c.
Proof.
  assert (UserDatas Sample.world_seen !! 0%nat = Some Sample.old_row) as H
    by reflexivity.
  split; [assumption |].
  exact (run_keeps_rows Sample.fifth_rejects Sample.world_seen 0 Sample.old_row H).
Defined.

Lemma run_spares_foreign_rows_witness :
  UserDatas Cases.world_foreign !! 0%nat = Some Cases.foreign_row
  ∧ (∀ it, it ∈ TypedBaseItems Cases.world_foreign →
           key_is (UserDataKey it) Cases.foreign_row = false)
  ∧ UserDatas (run Sample.morning Cases.world_foreign) !! 0%nat
    = Some Cases.foreign_row.
Proof.
  assert (UserDatas Cases.world_foreign !! 0%nat = Some Cases.foreign_row) as H1
    by reflexivity.
  assert (∀ it, it ∈ TypedBaseItems Cases.world_foreign →
                key_is (UserDataKey it) Cases.foreign_row = false) as H2.
  { intros it Hit. apply list_elem_of_singleton in Hit. rewrite Hit. reflexivity. }
  repeat (split; [assumption |]).
  exact (run_spares_foreign_rows Sample.morning Cases.world_foreign 0
           Cases.foreign_row H1 H2).
Defined.

(** The run on that table: the row of the episode is updated, the foreign
    row is as it was. *)
Example foreign_row_spared :
  let w := run Sample.morning Cases.world_foreign in
  omap key_of (UserDatas w) = ["gone42"; "abc123"]
  ∧ (UserDatas w !! 0%nat) ≫= (.!! "playCount") = Some (VNum 7)
  ∧ (UserDatas w !! 1%nat) ≫= (.!! "playCount") = Some (VNum 3)
  ∧ (UserDatas w !! 1%nat) ≫= (.!! "rating") = Some (VNum 8).
Proof. repeat split; vm_compute; reflexivity. Qed.

Lemma run_cost_witness :
  reliable Sample.morning
  ∧ (let watched := select_watched (files Sample.world_pair) in
     let hits := matches (TypedBaseItems Sample.world_pair) watched in
     calls (run Sample.morning Sample.world_pair)
     = (calls Sample.world_pair + 1 + length watched + 2 * length hits)%nat
     ∧ dates (run Sample.morning Sample.world_pair)
       = (dates Sample.world_pair
          + length (undated_matches (TypedBaseItems Sample.world_pair) watched))%nat
     ∧ ∃ lines,
         console (run Sample.morning Sample.world_pair)
         = console Sample.world_pair
           ++ [LogConnecting; LogFound (length watched)] ++ lines ++ [LogComplete]
         ∧ length lines = length hits
         ∧ outcomes lines = length hits).
Proof.
  assert (reliable Sample.morning) as H by (intros n; reflexivity).
  split; [assumption |].
  exact (run_cost Sample.morning Sample.world_pair H).
Defined.

(** Three watched files, two of them matched: 1 + 3 + 2 * 2 store calls. *)
Example cost_of_three_files :
  calls (run Sample.morning Sample.world_pair) = 8%nat
  ∧ dates (run Sample.morning Sample.world_pair) = 0%nat
  ∧ calls (run Sample.morning Sample.world_undated) = 4%nat
  ∧ dates (run Sample.morning Sample.world_undated) = 1%nat.
Proof. repeat split; vm_compute; reflexivity. Qed.

Lemma run_source_unavailable_witness :
  rejects Cases.kodi_down (calls Sample.world_seen) = true
  ∧ (UserDatas (run Cases.kodi_down Sample.world_seen) = UserDatas Sample.world_seen
     ∧ calls (run Cases.kodi_down Sample.world_seen) = S (calls Sample.world_seen)
     ∧ dates (run Cases.kodi_down Sample.world_seen) = dates Sample.world_seen
     ∧ console (run Cases.kodi_down Sample.world_seen)
       = console Sample.world_seen
         ++ [LogConnecting; LogError (StoreError (calls Sample.world_seen))]
     ∧ kodiDb_destroyed (run Cases.kodi_down Sample.world_seen) = true
     ∧ jellyfinDb_destroyed (run Cases.kodi_down Sample.world_seen) = true).
Proof.
  assert (rejects Cases.kodi_down (calls Sample.world_seen) = true) as H
    by reflexivity.
  split; [assumption |].
  exact (run_source_unavailable Cases.kodi_down Sample.world_seen H).
Defined.

Lemma run_marks_played_witness :
  reliable Sample.morning
  ∧ Sample.second ∈ select_watched (files Sample.world_pair)
  ∧ first_like (pattern_of Sample.second) (TypedBaseItems Sample.world_pair)
    = Some (mkItem Sample.guid2 "def456" (Some "/mnt/media/Show/S01E02.mkv"))
  ∧ (is_Some (first_where_key "def456" (UserDatas (run Sample.morning Sample.world_pair)))
     ∧ ∀ row,
         row ∈ UserDatas (run Sample.morning Sample.world_pair) →
         key_is "def456" row = true →
         row !! "played" = Some (VNum 1)
         ∧ row !! "isFavorite" = Some (VNum 0)
         ∧ row !! "playbackPositionTicks" = Some (VNum 0)
         ∧ row !! "userId" = Some (VNum 1)
         ∧ ∃ e' it',
             e' ∈ select_watched (files Sample.world_pair)
             ∧ first_like (pattern_of e') (TypedBaseItems Sample.world_pair) = Some it'
             ∧ UserDataKey it' = "def456"
             ∧ row !! "playCount" = Some (VNum (playCount e'))
             ∧ (0 < playCount e')%Z).
Proof.
  assert (reliable Sample.morning) as H1 by (intros n; reflexivity).
  assert (Sample.second ∈ select_watched (files Sample.world_pair)) as H2.
  { apply elem_of_cons. right. apply elem_of_cons. left. reflexivity. }
  assert (first_like (pattern_of Sample.second) (TypedBaseItems Sample.world_pair)
          = Some (mkItem Sample.guid2 "def456" (Some "/mnt/media/Show/S01E02.mkv")))
    as H3 by reflexivity.
  repeat (split; [assumption |]).
  exact (run_marks_played Sample.morning Sample.world_pair Sample.second _ H1 H2 H3).
Defined.

Lemma run_last_write_wins_witness :
  reliable Sample.morning
  ∧ select_watched (files Sample.world_pair)
    = [] ++ Sample.episode :: [Sample.second; Sample.third]
  ∧ first_like (pattern_of Sample.episode) (TypedBaseItems Sample.world_pair)
    = Some Sample.episode_item
  ∧ (∀ e' it', e' ∈ [Sample.second; Sample.third] →
               first_like (pattern_of e') (TypedBaseItems Sample.world_pair) = Some it' →
               UserDataKey it' ≠ UserDataKey Sample.episode_item)
  ∧ ∀ row, row ∈ UserDatas (run Sample.morning Sample.world_pair) →
      key_is (UserDataKey Sample.episode_item) row = true →
      row !! "playCount" = Some (VNum (playCount Sample.episode))
      ∧ (Js.truthy (lastPlayed Sample.episode) = true →
         row !! "lastPlayedDate"
         = Some (VStr (Js.string_of (lastPlayed Sample.episode) +:+ ".000Z"))).
Proof.
  assert (reliable Sample.morning) as H1 by (intros n; reflexivity).
  assert (select_watched (files Sample.world_pair)
          = [] ++ Sample.episode :: [Sample.second; Sample.third]) as H2
    by reflexivity.
  assert (first_like (pattern_of Sample.episode) (TypedBaseItems Sample.world_pair)
          = Some Sample.episode_item) as H3 by reflexivity.
  assert (∀ e' it', e' ∈ [Sample.second; Sample.third] →
            first_like (pattern_of e') (TypedBaseItems Sample.world_pair) = Some it' →
            UserDataKey it' ≠ UserDataKey Sample.episode_item) as H4.
  { intros e' it' Hin Hm.
    apply elem_of_cons in Hin as [-> | Hin].
    - vm_compute in Hm. injection Hm as <-. discriminate.
    - apply list_elem_of_singleton in Hin as ->. vm_compute in Hm. discriminate Hm. }
  repeat (split; [assumption |]).
  exact (run_last_write_wins Sample.morning Sample.world_pair
           [] Sample.episode [Sample.second; Sample.third] Sample.episode_item
           H1 H2 H3 H4).
Defined.


Lemma first_like_finds_first_witness :
  Path Sample.episode_item = Some "/mnt/media/Show/S01E01.mkv"
  ∧ includes (strFilename Sample.episode) "/mnt/media/Show/S01E01.mkv" = true
  ∧ ∃ it', first_like (pattern_of Sample.episode)
             ([Sample.lookalike_item; Cases.folder] ++ Sample.episode_item :: [Sample.exact_item])
           = Some it'
           ∧ it' ∈ [Sample.lookalike_item; Cases.folder] ++ [Sample.episode_item].
Proof.
  assert (Path Sample.episode_item = Some "/mnt/media/Show/S01E01.mkv") as H1
    by reflexivity.
  assert (includes (strFilename Sample.episode) "/mnt/media/Show/S01E01.mkv" = true)
    as H2 by reflexivity.
  repeat (split; [assumption |]).
  exact (first_like_finds_first Sample.episode [Sample.lookalike_item; Cases.folder]
           Sample.episode_item [Sample.exact_item] _ H1 H2).
Defined.

Lemma first_like_empty_name_witness :
  strFilename Cases.nameless = ""
  ∧ Forall (λ it', Path it' = None) [Cases.folder]
  ∧ Path Sample.lookalike_item = Some "/media/MyXShow.mkv"
  ∧ first_like (pattern_of Cases.nameless)
      ([Cases.folder] ++ Sample.lookalike_item :: [Sample.episode_item])
    = Some Sample.lookalike_item.
Proof.
  assert (strFilename Cases.nameless = "") as H1 by reflexivity.
  assert (Forall (λ it', Path it' = None) [Cases.folder]) as H2
    by (constructor; [reflexivity | constructor]).
  assert (Path Sample.lookalike_item = Some "/media/MyXShow.mkv") as H3
    by reflexivity.
  repeat (split; [assumption |]).
  exact (first_like_empty_name Cases.nameless [Cases.folder] Sample.lookalike_item
           [Sample.episode_item] _ H1 H2 H3).
Defined.

Lemma formatGUID_injective_witness :
  formatGUID Sample.guid1 = inr "00112233-4455-6677-8899-aabbccddeeff"
  ∧ Sample.guid1 = Sample.guid1
  ∧ String.length "00112233-4455-6677-8899-aabbccddeeff" = 36%nat.
Proof.
  assert (formatGUID Sample.guid1 = inr "00112233-4455-6677-8899-aabbccddeeff")
    as H by reflexivity.
  split; [assumption |].
  exact (formatGUID_injective Sample.guid1 Sample.guid1 _ H H).
Defined.

Lemma run_one_row_per_item_witness :
  reliable Sample.morning
  ∧ unique_keys (UserDatas Sample.world_twice)
  ∧ mkKodiEntry "S01E01.mkv" (Some "2023-01-01 10:00:00") 3
    ∈ select_watched (files Sample.world_twice)
  ∧ first_like (pattern_of (mkKodiEntry "S01E01.mkv" (Some "2023-01-01 10:00:00") 3))
      (TypedBaseItems Sample.world_twice)
    = Some Sample.episode_item
  ∧ length (filter (λ row, key_is (UserDataKey Sample.episode_item) row = true)
              (UserDatas (run Sample.morning Sample.world_twice)))
    = 1%nat.
Proof.
  assert (reliable Sample.morning) as H1 by (intros n; reflexivity).
  assert (unique_keys (UserDatas Sample.world_twice)) as H2 by constructor.
  assert (mkKodiEntry "S01E01.mkv" (Some "2023-01-01 10:00:00") 3
          ∈ select_watched (files Sample.world_twice)) as H3.
  { apply elem_of_cons. left. reflexivity. }
  assert (first_like (pattern_of (mkKodiEntry "S01E01.mkv" (Some "2023-01-01 10:00:00") 3))
            (TypedBaseItems Sample.world_twice)
          = Some Sample.episode_item) as H4 by reflexivity.
  repeat (split; [assumption |]).
  exact (run_one_row_per_item Sample.morning Sample.world_twice _
           Sample.episode_item H1 H2 H3 H4).
Defined.

(** ** Skipping, where the query is containment *)




(** * Two runs in succession *)

(** When every matched entry already has its row, the loop inserts nothing
    and reports no insertion, whatever the store calls do. *)
Lemma for_of_updates_only env watched w :
  (∀ e it, e ∈ watched →
           first_like (pattern_of e) (TypedBaseItems w) = Some it →
           is_Some (first_where_key (UserDataKey it) (UserDatas w))) →
  length (UserDatas (for_of watched sync_entry env w).1) = length (UserDatas w)
  ∧ ∀ f, LogInserted f ∈ console (for_of watched sync_entry env w).1 →
         LogInserted f ∈ console w.
Proof.
  revert w. induction watched as [|e watched IH]; intros w Hrows; [done |].
  rewrite for_of_cons.
  destruct (sync_entry_effect env w e) as (w1 & r1 & -> & _ & Hitems & _ & _ & Hr1).
  destruct r1 as [err|[]].
  { cbn [fst]. destruct Hr1 as (-> & -> & _). done. }
  destruct Hr1 as [_ Hr1].
  assert (length (UserDatas w1) = length (UserDatas w)
          ∧ (∀ f, LogInserted f ∈ console w1 → LogInserted f ∈ console w)
          ∧ ∀ k, is_Some (first_where_key k (UserDatas w)) →
                 is_Some (first_where_key k (UserDatas w1)))
    as (Hlen & Hlog & Hmono).
  { destruct (first_like (pattern_of e) (TypedBaseItems w)) as [it|] eqn:Hm.
    - destruct Hr1 as (-> & -> & _).
      assert (is_Some (first_where_key (UserDataKey it) (UserDatas w))) as Hex.
      { eapply Hrows; [| exact Hm]. apply elem_of_cons. by left. }
      split; [by apply upsert_length_existing |]. split.
      + intros f. unfold outcome_line. destruct Hex as [row ->].
        rewrite elem_of_app, list_elem_of_singleton.
        intros [Hf | Hf]; [done | discriminate Hf].
      + intros k Hk. apply first_where_key_upsert_mono; [apply data_of_key | done].
    - destruct Hr1 as (-> & -> & _). done. }
  destruct (IH w1) as [Hlen' Hlog'].
  { intros e' it' Hin Hm'. rewrite Hitems in Hm'. apply Hmono.
    eapply Hrows; [| exact Hm']. apply elem_of_cons. by right. }
  split; [congruence |]. intros f Hf. by apply Hlog, Hlog'.
Qed.

Lemma run_updates_only env w :
  (∀ e it, e ∈ select_watched (files w) →
           first_like (pattern_of e) (TypedBaseItems w) = Some it →
           is_Some (first_where_key (UserDataKey it) (UserDatas w))) →
  length (UserDatas (run env w)) = length (UserDatas w)
  ∧ ∀ f, LogInserted f ∈ console (run env w) → LogInserted f ∈ console w.
Proof.
  intros Hrows. unfold run. rewrite main_unfold.
  assert (∀ line lines f, outcomes [line] = 0%nat →
            LogInserted f ∈ lines ++ [line] → LogInserted f ∈ lines) as Hline.
  { intros line lines f Hout. rewrite elem_of_app, list_elem_of_singleton.
    intros [Hf | <-]; [done | discriminate Hout]. }
  destruct (rejects env (calls w)).
  - cbn [fst]. fields. split; [done |]. intros f Hf.
    apply Hline in Hf; [| done]. by apply Hline in Hf.
  - pose proof (for_of_updates_only env (select_watched (files w)) (at_loop_entry w))
      as Hloop.
    destruct Hloop as [Hlen Hlog]; [done |].
    assert (∀ f, LogInserted f ∈ console (at_loop_entry w) →
                 LogInserted f ∈ console w) as Hentry.
    { intros f. unfold at_loop_entry. fields. intros Hf.
      apply Hline in Hf; [| done]. by apply Hline in Hf. }
    destruct (for_of _ sync_entry env _) as [w' [err|[]]]; cbn [fst] in *; fields;
      (split; [done |]); intros f Hf; (apply Hline in Hf; [| done]);
      by apply Hentry, Hlog.
Qed.

Lemma key_is_of_key k k' (row : Row) :
  key_of row = Some k → key_is k' row = bool_decide (k' = k).
Proof.
  intros Hk. apply key_is_key_of in Hk.
  destruct (decide (k' = k)) as [->|Hne].
  - by rewrite bool_decide_eq_true_2.
  - rewrite bool_decide_eq_false_2 by done.
    destruct (key_is k' row) eqn:E; [| done].
    destruct Hne. by apply (key_is_inj _ _ row).
Qed.

Lemma key_of_none_key_is k (row : Row) : key_of row = None → key_is k row = false.
Proof.
  intros Hnone. destruct (key_is k row) eqn:E; [| done].
  apply key_is_key_of in E. congruence.
Qed.

(** What a sequence of writes of the same columns makes of a row is decided
    by the last of them for the key of the row. *)
Lemma replay_last_write cols ops (row : Row) k :
  "key" ∉ cols →
  Forall (λ op : string * Row, dom op.2 = cols) ops →
  key_of row = Some k →
  replay ops row = match last_write k ops with
                   | Some data => data ∪ row
                   | None => row
                   end.
Proof.
  intros Hcols Hs. revert row.
  induction Hs as [|op ops Hop Hs IH]; intros row Hk; [done |].
  rewrite replay_cons. cbn [last_write].
  assert (op.2 !! "key" = None) as Hnokey by by apply (shaped_key cols).
  rewrite IH by by rewrite key_of_set_where_key.
  unfold set_where_key. rewrite (key_is_of_key k op.1 row Hk).
  destruct (last_write k ops) as [data|] eqn:E.
  - destruct (decide (op.1 = k)) as [Heq|Hne].
    + rewrite bool_decide_eq_true_2 by done.
      apply (union_absorb data op.2 row).
      assert (dom data = cols) as ->; [| done].
      clear -E Hs. induction Hs as [|op' ops' Hop' Hs' IH']; [discriminate E |].
      cbn [last_write] in E. destruct (last_write k ops'); [by apply IH' |].
      destruct (decide (op'.1 = k)); [| discriminate E]. by injection E as <-.
    + by rewrite bool_decide_eq_false_2.
  - destruct (decide (op.1 = k)) as [Heq|Hne].
    + by rewrite bool_decide_eq_true_2.
    + by rewrite bool_decide_eq_false_2.
Qed.

Lemma replay_no_key ops (row : Row) : key_of row = None → replay ops row = row.
Proof.
  intros Hnone. apply replay_other. apply Forall_forall. intros op _.
  by apply key_of_none_key_is.
Qed.

Lemma writes_of_last_write env items d watched k :
  ∃ d', last_write k (writes_of env items d watched)
        = (λ e, data_of e (stamp env d' e)) <$> last_for items k watched.
Proof.
  revert d. induction watched as [|e watched IH]; intros d; [by exists d |].
  cbn [writes_of last_for].
  destruct (first_like (pattern_of e) items) as [it|].
  - cbn [last_write fst snd].
    destruct (IH (if Js.truthy (lastPlayed e) then d else S d)) as [d' Hd'].
    rewrite Hd'. destruct (last_for items k watched) as [e'|]; cbn.
    + by exists d'.
    + exists d. by destruct (decide (UserDataKey it = k)).
  - destruct (IH d) as [d' Hd']. rewrite Hd'.
    destruct (last_for items k watched); by exists d'.
Qed.

(** Row by row: what a second run without rejection makes of a row that a
    first one left. *)
Lemma rerun_row env1 env2 items watched d1 d2 rows row :
  row ∈ apply_writes (writes_of env1 items d1 watched) rows →
  let row' := replay (writes_of env2 items d2 watched) row in
  delete "lastPlayedDate" row' = delete "lastPlayedDate" row
  ∧ (clock_dated items watched row = false → row' = row)
  ∧ (clock_dated items watched row = true →
     ∃ j, row' !! "lastPlayedDate"
          = Some (VStr (formatISO9075 (clock env2 j) +:+ ".000Z"))).
Proof.
  intros Hin. cbv zeta. unfold clock_dated.
  pose proof (apply_writes_settled _ key_not_payload _ rows
                (writes_of_shaped env1 items d1 watched)) as Hsettled.
  eapply Forall_forall in Hsettled; [| exact Hin]. cbn in Hsettled.
  destruct (key_of row) as [k|] eqn:Hk.
  2: { rewrite replay_no_key by done. done. }
  rewrite (replay_last_write payload_columns _ _ k key_not_payload
             (writes_of_shaped env1 items d1 watched) Hk) in Hsettled.
  rewrite (replay_last_write payload_columns _ _ k key_not_payload
             (writes_of_shaped env2 items d2 watched) Hk).
  destruct (writes_of_last_write env1 items d1 watched k) as [j1 H1].
  destruct (writes_of_last_write env2 items d2 watched k) as [j2 H2].
  rewrite H1 in Hsettled. rewrite H2.
  destruct (last_for items k watched) as [e|]; cbn [fmap option_fmap option_map] in *;
    [| done].
  split; [| split].
  - rewrite <-Hsettled at 2. rewrite !delete_union.
    by rewrite (data_of_without_date e _ (stamp env1 j1 e)).
  - intros Ht.
    assert (Js.truthy (lastPlayed e) = true) as Ht'
      by (by destruct (lastPlayed e) as [[|??]|]).
    rewrite <-Hsettled at 2. unfold stamp. by rewrite Ht'.
  - intros Ht.
    assert (Js.truthy (lastPlayed e) = false) as Ht'
      by (by destruct (lastPlayed e) as [[|??]|]).
    exists j2. unfold stamp. rewrite Ht'. by apply lookup_union_Some_l.
Qed.

(** C2, as amended.  After a first run without rejection, a second run on
    the stores it left, on unchanged source data, inserts nothing: it reports
    no insertion and the table has as many rows as before, whatever its store
    calls do.  When the second run too is without rejection, every row is
    after it what it was after the first, but for [lastPlayedDate] in the
    rows that have their date from the clock (the last watched file matched
    to their key has no last-played value): there the second run writes the
    date of its own clock.  So the table is the same when every matched file
    has a last-played value. *)
Theorem rerun_idempotent env1 env2 w :
  reliable env1 →
  let w1 := run env1 w in
  let w2 := rerun env2 w1 in
  (∀ f, LogInserted f ∉ console w2)
  ∧ length (UserDatas w2) = length (UserDatas w1)
  ∧ (reliable env2 →
     (∀ i row, UserDatas w1 !! i = Some row →
        ∃ row', UserDatas w2 !! i = Some row'
          ∧ delete "lastPlayedDate" row' = delete "lastPlayedDate" row
          ∧ (clock_dated (TypedBaseItems w) (select_watched (files w)) row = false →
             row' = row)
          ∧ (clock_dated (TypedBaseItems w) (select_watched (files w)) row = true →
             ∃ j, row' !! "lastPlayedDate"
                  = Some (VStr (formatISO9075 (clock env2 j) +:+ ".000Z"))))
     ∧ delete "lastPlayedDate" <$> UserDatas w2
       = delete "lastPlayedDate" <$> UserDatas w1
     ∧ ((∀ e, e ∈ select_watched (files w) →
              is_Some (first_like (pattern_of e) (TypedBaseItems w)) →
              ∃ s, lastPlayed e = Some s ∧ s ≠ "") →
        UserDatas w2 = UserDatas w1)).
Proof.
  intros Hr1. cbv zeta. unfold rerun.
  destruct (run_reliable env1 w Hr1) as (Hf1 & Hi1 & Hu1).
  set (w1 := run env1 w) in *.
  set (watched := select_watched (files w)) in *.
  set (items := TypedBaseItems w) in *.
  set (ops1 := writes_of env1 items (dates w) watched) in *.
  set (w1' := boot (files w1) (TypedBaseItems w1) (UserDatas w1)).
  pose proof (writes_of_shaped env1 items (dates w) watched) as Hs1. fold ops1 in Hs1.
  assert (∀ e it, e ∈ watched → first_like (pattern_of e) items = Some it →
                  is_Some (first_where_key (UserDataKey it) (UserDatas w1))) as Hkeys.
  { intros e it He Hm.
    destruct (writes_of_keys env1 items (dates w) watched e it He Hm) as [data Hd].
    fold ops1 in Hd. rewrite Hu1.
    pose proof (apply_writes_has_keys _ key_not_payload ops1 (UserDatas w) Hs1) as H.
    eapply Forall_forall in H; [| exact Hd]. done. }
  destruct (run_updates_only env2 w1') as [Hlen Hlog].
  { cbn [w1' boot files TypedBaseItems UserDatas]. rewrite Hf1, Hi1. exact Hkeys. }
  split; [| split; [exact Hlen |]].
  { intros f Hf. apply Hlog in Hf. by apply elem_of_nil in Hf. }
  intros Hr2. destruct (run_reliable env2 w1' Hr2) as (_ & _ & Hu2).
  set (w2 := run env2 w1') in *.
  cbn [w1' boot files TypedBaseItems UserDatas dates] in Hu2.
  rewrite Hf1, Hi1 in Hu2. fold watched items in Hu2.
  set (ops2 := writes_of env2 items 0 watched) in *.
  pose proof (writes_of_shaped env2 items 0 watched) as Hs2. fold ops2 in Hs2.
  assert (UserDatas w2 = replay ops2 <$> UserDatas w1) as Hreplay.
  { rewrite Hu2. apply (apply_writes_existing _ key_not_payload); [done |].
    apply Forall_forall. intros [k data] Hin. cbn.
    apply writes_of_elem in Hin as (e & it & s & He & Hm & -> & _).
    by eapply Hkeys. }
  split; [| split].
  - intros i row Hi. exists (replay ops2 row). split.
    { by rewrite Hreplay, list_lookup_fmap, Hi. }
    apply (rerun_row env1 env2 items watched (dates w) 0 (UserDatas w)).
    fold ops1. rewrite <-Hu1. by eapply list_elem_of_lookup_2.
  - rewrite Hu2, Hu1. rewrite !apply_writes_delete by done.
    unfold ops2. rewrite (writes_of_without_date env2 env1 items 0 (dates w) watched).
    fold ops1. apply (apply_writes_idem (payload_columns ∖ {["lastPlayedDate"]})).
    + pose proof key_not_payload. set_solver.
    + by apply without_shaped.
  - intros Hv.
    assert (∀ e, e ∈ watched → is_Some (first_like (pattern_of e) items) →
                 Js.truthy (lastPlayed e) = true) as Ht.
    { intros e He Hm. destruct (Hv e He Hm) as (s & -> & Hs). by destruct s. }
    rewrite Hu2, Hu1. unfold ops2.
    rewrite (writes_of_truthy env2 env1 items 0 (dates w) watched Ht). fold ops1.
    by apply (apply_writes_idem _ key_not_payload).
Qed.

Lemma rerun_idempotent_witness :
  reliable Sample.morning
  ∧ reliable Sample.next_day
  ∧ (let w := Cases.world_mixed in
     let w1 := run Sample.morning w in
     let w2 := rerun Sample.next_day w1 in
     (∀ f, LogInserted f ∉ console w2)
     ∧ length (UserDatas w2) = length (UserDatas w1)
     ∧ (∃ row, UserDatas w1 !! 0%nat = Some row
               ∧ clock_dated (TypedBaseItems w) (select_watched (files w)) row = false
               ∧ row !! "lastPlayedDate" = Some (VStr "2023-01-01 10:00:00.000Z")
               ∧ UserDatas w2 !! 0%nat = Some row)
     ∧ (∃ row row', UserDatas w1 !! 1%nat = Some row
               ∧ clock_dated (TypedBaseItems w) (select_watched (files w)) row = true
               ∧ row !! "lastPlayedDate" = Some (VStr "2024-01-05 09:03:07.000Z")
               ∧ UserDatas w2 !! 1%nat = Some row'
               ∧ delete "lastPlayedDate" row' = delete "lastPlayedDate" row
               ∧ ∃ j, row' !! "lastPlayedDate"
                      = Some (VStr (formatISO9075 (clock Sample.next_day j) +:+ ".000Z"))))
  ∧ (∀ e, e ∈ select_watched (files Sample.world_pair) →
          is_Some (first_like (pattern_of e) (TypedBaseItems Sample.world_pair)) →
          ∃ s, lastPlayed e = Some s ∧ s ≠ "")
  ∧ UserDatas (rerun Sample.next_day (run Sample.morning Sample.world_pair))
    = UserDatas (run Sample.morning Sample.world_pair).
Proof.
  assert (reliable Sample.morning) as H1 by (intros n; reflexivity).
  assert (reliable Sample.next_day) as H2 by (intros n; reflexivity).
  assert (∀ e, e ∈ select_watched (files Sample.world_pair) →
               is_Some (first_like (pattern_of e) (TypedBaseItems Sample.world_pair)) →
               ∃ s, lastPlayed e = Some s ∧ s ≠ "") as Hdated.
  { assert (Forall (λ e, ∃ s, lastPlayed e = Some s ∧ s ≠ "")
                   (select_watched (files Sample.world_pair))) as Hall
      by (repeat (constructor; [eexists; split; [reflexivity | discriminate] |]);
          constructor).
    intros e He _. exact (proj1 (Forall_forall _ _) Hall e He). }
  split; [exact H1 |]. split; [exact H2 |].
  split; [| split; [exact Hdated |]].
  - destruct (rerun_idempotent Sample.morning Sample.next_day Cases.world_mixed H1)
      as (Hlog & Hlen & Hrest).
    destruct (Hrest H2) as (Hrows & _ & _).
    cbv zeta. split; [exact Hlog |]. split; [exact Hlen |]. split.
    + destruct (UserDatas (run Sample.morning Cases.world_mixed) !! 0%nat)
        as [row |] eqn:Hrow; [| vm_compute in Hrow; discriminate Hrow].
      assert (clock_dated (TypedBaseItems Cases.world_mixed)
                (select_watched (files Cases.world_mixed)) row = false) as Hc
        by (vm_compute in Hrow; injection Hrow as <-; vm_compute; reflexivity).
      assert (row !! "lastPlayedDate" = Some (VStr "2023-01-01 10:00:00.000Z")) as Hd
        by (vm_compute in Hrow; injection Hrow as <-; vm_compute; reflexivity).
      destruct (Hrows 0%nat row Hrow) as (row' & Hrow' & _ & Hsame & _).
      exists row. split; [reflexivity |]. split; [exact Hc |]. split; [exact Hd |].
      rewrite Hrow'. f_equal. exact (Hsame Hc).
    + destruct (UserDatas (run Sample.morning Cases.world_mixed) !! 1%nat)
        as [row |] eqn:Hrow; [| vm_compute in Hrow; discriminate Hrow].
      assert (clock_dated (TypedBaseItems Cases.world_mixed)
                (select_watched (files Cases.world_mixed)) row = true) as Hc
        by (vm_compute in Hrow; injection Hrow as <-; vm_compute; reflexivity).
      assert (row !! "lastPlayedDate" = Some (VStr "2024-01-05 09:03:07.000Z")) as Hd
        by (vm_compute in Hrow; injection Hrow as <-; vm_compute; reflexivity).
      destruct (Hrows 1%nat row Hrow) as (row' & Hrow' & Hdel & _ & Hclock).
      exists row, row'. split; [reflexivity |]. split; [exact Hc |].
      split; [exact Hd |]. split; [exact Hrow' |]. split; [exact Hdel |].
      exact (Hclock Hc).
  - destruct (rerun_idempotent Sample.morning Sample.next_day Sample.world_pair H1)
      as (_ & _ & Hrest).
    destruct (Hrest H2) as (_ & _ & Hsame). exact (Hsame Hdated).
Defined.

(** C2, as stated, fails.  First, the file has no last-played date: the
    first run writes the date of its clock, and the second run, a day later
    on unchanged source data, writes another, so that the table differs.
    Second, the first run is cut short by a rejected store call, after its
    first file: the second run inserts the row of the second file.  Third,
    the second run is cut short, after the first of two files of one item:
    the row has the play count of the first file, where the first run left
    that of the second. *)
Lemma rerun_breaks_idempotence :
  (reliable Sample.morning
   ∧ reliable Sample.next_day
   ∧ (UserDatas (run Sample.morning Sample.world_undated) !! 0%nat)
       ≫= (.!! "lastPlayedDate")
     = Some (VStr "2024-01-05 09:03:07.000Z")
   ∧ (UserDatas (rerun Sample.next_day (run Sample.morning Sample.world_undated)) !! 0%nat)
       ≫= (.!! "lastPlayedDate")
     = Some (VStr "2024-01-06 09:03:07.000Z")
   ∧ UserDatas (rerun Sample.next_day (run Sample.morning Sample.world_undated))
     ≠ UserDatas (run Sample.morning Sample.world_undated))
  ∧ (¬ reliable Sample.fifth_rejects
     ∧ length (UserDatas (run Sample.fifth_rejects Sample.world_pair)) = 1%nat
     ∧ console (rerun Sample.morning (run Sample.fifth_rejects Sample.world_pair))
       = [ LogConnecting; LogFound 3; LogUpdated "Show/S01E01.mkv";
           LogInserted "Show/S01E02.mkv"; LogComplete ]
     ∧ length (UserDatas (rerun Sample.morning
                            (run Sample.fifth_rejects Sample.world_pair))) = 2%nat)
  ∧ ((UserDatas (run Sample.morning Sample.world_twice) !! 0%nat)
       ≫= (.!! "playCount")
     = Some (VNum 1)
     ∧ console (rerun Sample.fifth_rejects (run Sample.morning Sample.world_twice))
       = [ LogConnecting; LogFound 2; LogUpdated "S01E01.mkv";
           LogError (StoreError 4) ]
     ∧ (UserDatas (rerun Sample.fifth_rejects
                     (run Sample.morning Sample.world_twice)) !! 0%nat)
         ≫= (.!! "playCount")
       = Some (VNum 3)).
Proof.
  split; [| split].
  - split; [intros n; reflexivity |]. split; [intros n; reflexivity |].
    split; [vm_compute; reflexivity |]. split; [vm_compute; reflexivity |].
    intros H.
    apply (f_equal (λ rows : list Row, (rows !! 0%nat) ≫= (.!! "lastPlayedDate"))) in H.
    vm_compute in H. discriminate H.
  - split; [intros H; specialize (H 4%nat); vm_compute in H; discriminate H |].
    repeat split; vm_compute; reflexivity.
  - repeat split; vm_compute; reflexivity.
Qed.
